(** * Vaccine eligibility and nearest vaccination site (final.py)

    A shallow embedding of [final.py]: the phase classifier
    [Eligibility.eligible], the loaders [Eligibility.__init__] and
    [Zipcode.__init__], the lookups [Zipcode.get_latlng], [Zipcode.nearest]
    and [Zipcode.get_dist], the entry point [main] and the counting done by
    [graphyes] and [graphno].

    Conventions.
    - A Python [str] is a [string]; a Python [int] is a [Z]; a Python [float]
      is a binary64 primitive [float], compared with [PrimFloat.ltb] and
      [PrimFloat.eqb] as Python's [<] and [==] do.
    - A Python [dict] keeps its keys in insertion order: it is an association
      list without repeated keys (module [PyDict]).
    - A raised exception is the [Raise] case of [result].
    - The third-party functions [vincenty] and [haversine] and the built-ins
      [int] and [float] are parameters of the development: their code is not
      part of the program. *)

From Stdlib Require Import ZArith List String Ascii Bool Lia Floats.
Import ListNotations.

Open Scope string_scope.
Open Scope Z_scope.

(** ** Exceptions *)

Inductive exn : Type :=
| KeyError (key : string)
| IndexError
| ValueError.

Inductive result (A : Type) : Type :=
| Ok (a : A)
| Raise (e : exn).

Arguments Ok {A} a.
Arguments Raise {A} e.

Definition rbind {A B : Type} (r : result A) (k : A -> result B) : result B :=
  match r with
  | Ok a => k a
  | Raise e => Raise e
  end.

Notation "x <- r ;; k" := (rbind r (fun x => k))
  (at level 61, r at next level, right associativity).

(** ** Strings: [in], [str.strip], [str.split] *)

(** [s in l] for a list of strings. *)
Definition str_in (s : string) (l : list string) : bool :=
  existsb (String.eqb s) l.

(** The ASCII characters Python's [str.isspace] accepts: tab, line feed,
    vertical tab, form feed, carriage return, the four separators 28-31 and
    the space. *)
Definition is_space (c : ascii) : bool :=
  let n := nat_of_ascii c in
  ((9 <=? n)%nat && (n <=? 13)%nat) || ((28 <=? n)%nat && (n <=? 32)%nat).

Fixpoint lstrip (s : string) : string :=
  match s with
  | String c r => if is_space c then lstrip r else s
  | EmptyString => EmptyString
  end.

(** Drops the white space at the end of [s]. *)
Fixpoint rstrip (s : string) : string :=
  match s with
  | EmptyString => EmptyString
  | String c r =>
      match rstrip r with
      | EmptyString => if is_space c then EmptyString else String c EmptyString
      | r' => String c r'
      end
  end.

(** [s.strip()] *)
Definition strip (s : string) : string := rstrip (lstrip s).

(** [split_on sep s] is [s.split(sep)] for a one-character separator: the
    fields between the separators, empty fields kept. [cur] is the field
    being read. *)
Fixpoint split_on_aux (sep : ascii) (s : string) (cur : string) : list string :=
  match s with
  | EmptyString => [cur]
  | String c r =>
      if Ascii.eqb c sep then cur :: split_on_aux sep r EmptyString
      else split_on_aux sep r (cur ++ String c EmptyString)
  end.

Definition split_on (sep : ascii) (s : string) : list string :=
  split_on_aux sep s EmptyString.

(** [s.split()]: the maximal runs of characters that are not white space. *)
Fixpoint split_ws_aux (s : string) (cur : string) : list string :=
  match s with
  | EmptyString => match cur with EmptyString => [] | _ => [cur] end
  | String c r =>
      if is_space c then
        match cur with
        | EmptyString => split_ws_aux r EmptyString
        | _ => cur :: split_ws_aux r EmptyString
        end
      else split_ws_aux r (cur ++ String c EmptyString)
  end.

Definition split_ws (s : string) : list string := split_ws_aux s EmptyString.

(** [l[i]] on a list: [IndexError] out of range. *)
Definition item {A : Type} (l : list A) (i : nat) : result A :=
  match nth_error l i with
  | Some a => Ok a
  | None => Raise IndexError
  end.

(** ** Dictionaries *)

Module PyDict.

Section Dict.

Context {V : Type}.

(** Keys in insertion order. *)
Definition dict : Type := list (string * V).

Definition empty : dict := [].

(** [d.get(k)] *)
Fixpoint get (d : dict) (k : string) : option V :=
  match d with
  | [] => None
  | (k', v) :: r => if String.eqb k k' then Some v else get r k
  end.

(** [d[k]], [KeyError] when [k] is not a key. *)
Definition getitem (d : dict) (k : string) : result V :=
  match get d k with
  | Some v => Ok v
  | None => Raise (KeyError k)
  end.

(** [d[k] = v]: a key already present keeps its place and takes the new
    value, a new key goes last. *)
Fixpoint set (d : dict) (k : string) (v : V) : dict :=
  match d with
  | [] => [(k, v)]
  | (k', v') :: r =>
      if String.eqb k k' then (k', v) :: r else (k', v') :: set r k v
  end.

(** [list(d)]: the keys, in iteration order. *)
Definition keys (d : dict) : list string := map fst d.

(** [k in d] *)
Definition mem (k : string) (d : dict) : bool :=
  match get d k with
  | Some _ => true
  | None => false
  end.

End Dict.

Arguments dict V : clear implicits.

End PyDict.

Import PyDict.

(** ** Records of the program's data *)

(** The tuple [(name, age, immunocompromised, job, preference, zipcode,
    phase)] stored in [Eligibility.info]; the fields are in the tuple's
    order, so [person[5]] is [p_zipcode] and [person[6]] is [p_phase]. *)
Record person : Type := mk_person {
  p_name : string;
  p_age : Z;
  p_immunocompromised : string;
  p_job : string;
  p_preference : string;
  p_zipcode : string;
  p_phase : string
}.

(** A pair [(lat, lng)]. *)
Definition coord : Type := (float * float)%type.

(** The value of [zipdict]: the keys "zip", "lat" and "lng". *)
Record zipdict : Type := mk_zipdict {
  zd_zip : string;
  zd_lat : float;
  zd_lng : float
}.

(** The value of [location_dict]: the keys "name", "zip", "lat", "lng". *)
Record location : Type := mk_location {
  loc_name : string;
  loc_zip : string;
  loc_lat : float;
  loc_lng : float
}.

(** An [Eligibility] object: its one attribute. *)
Record Eligibility : Type := mk_Eligibility {
  info : dict person
}.

(** A [Zipcode] object: its two attributes. *)
Record Zipcode : Type := mk_Zipcode {
  zipcodes : dict zipdict;
  vaccine_locations : dict location
}.

(** A row of the data frame [pd.read_csv] builds in [graphyes] and
    [graphno], with the column names given there. *)
Record row : Type := mk_row {
  r_name : string;
  r_age : Z;
  r_immunocompromised : string;
  r_job : string;
  r_will_take_vaccine : string;
  r_zipcode : string
}.

(** ** What the program calls and does not define

    [py_int] and [py_float] are the built-ins [int] and [float] on a string
    ([None]: [ValueError]); [vincenty p1 p2 miles] is [None] when the
    iteration does not converge; [haversine p1 p2 unit] takes the unit's
    name; [combined_Eligibility] is the class [Eligibility] of the module
    [combined], applied to the lines of its file. *)
Class Externals : Type := {
  py_int : string -> option Z;
  py_float : string -> option float;
  vincenty : coord -> coord -> bool -> option float;
  haversine : coord -> coord -> string -> float;
  combined_Eligibility : list string -> result Eligibility
}.

(** ** Observable behaviour: a trace of events and an outcome *)

Inductive event : Type :=
| Input (prompt : string)
| Print (s : string)
| Call_get_latlng (zipcode : string)
| Call_nearest (p1 : coord)
| Call_get_dist (p1 p2 : coord) (miles : bool)
| Call_vincenty (p1 p2 : coord) (miles : bool)
| Call_haversine (p1 p2 : coord) (unit : string).

(** A computation: the events it produced and how it ended. *)
Definition io (A : Type) : Type := (list event * result A)%type.

Definition ret {A : Type} (a : A) : io A := ([], Ok a).

Definition bind {A B : Type} (m : io A) (k : A -> io B) : io B :=
  match m with
  | (t, Ok a) => let (t', r) := k a in ((t ++ t')%list, r)
  | (t, Raise e) => (t, Raise e)
  end.

Definition emit (e : event) : io unit := ([e], Ok tt).

Definition lift {A : Type} (r : result A) : io A := ([], r).

Notation "x <~ m ;; k" := (bind m (fun x => k))
  (at level 61, m at next level, right associativity).
Notation "m ;;; k" := (bind m (fun _ => k))
  (at level 61, right associativity).

Definition is_call (e : event) : bool :=
  match e with
  | Input _ | Print _ => false
  | _ => true
  end.

Definition is_print (e : event) : bool :=
  match e with
  | Print _ => true
  | _ => false
  end.

(** ** Eligibility *)

Definition phase1_jobs : list string := ["doctor"; "nurse"; "therapist"].
Definition phase2_jobs : list string := ["cashier"; "teacher"].

(** [Eligibility.eligible(self, age, immunocompromised, job)]; [self] is
    not read. *)
Definition eligible (age : Z) (immunocompromised job : string) : string :=
  if (age >=? 60) || str_in job phase1_jobs then "phase 1"
  else if String.eqb immunocompromised "yes" || str_in job phase2_jobs then "phase 2"
  else "phase 3".

Section Program.

Context {ext : Externals}.

(** [int(s)] *)
Definition int_of (s : string) : result Z :=
  match py_int s with
  | Some z => Ok z
  | None => Raise ValueError
  end.

(** [float(s)] *)
Definition float_of (s : string) : result float :=
  match py_float s with
  | Some x => Ok x
  | None => Raise ValueError
  end.

(** The body of the loop of [Eligibility.__init__] on one line of the
    file. *)
Definition Eligibility_init_line (info : dict person) (line : string)
  : result (dict person) :=
  let line := strip line in
  let line_data := split_ws line in
  name <- item line_data 0 ;;
  age_field <- item line_data 1 ;;
  age <- int_of age_field ;;
  immunocompromised <- item line_data 2 ;;
  job <- item line_data 3 ;;
  preference <- item line_data 4 ;;
  zipcode <- item line_data 5 ;;
  let phase := eligible age immunocompromised job in
  Ok (set info name
        (mk_person name age immunocompromised job preference zipcode phase)).

Fixpoint Eligibility_init_lines (info : dict person) (f : list string)
  : result (dict person) :=
  match f with
  | [] => Ok info
  | line :: rest =>
      info' <- Eligibility_init_line info line ;;
      Eligibility_init_lines info' rest
  end.

(** [Eligibility.__init__(self, file)], on the lines of [file]. *)
Definition Eligibility_init (f : list string) : result Eligibility :=
  info <- Eligibility_init_lines empty f ;;
  Ok (mk_Eligibility info).

(** [Eligibility.__repr__(self)] *)
Definition Eligibility_repr (self : Eligibility) : string :=
  fold_left
    (fun acc entry => acc ++ fst entry ++ " " ++ p_phase (snd entry) ++ String "010" EmptyString)
    (info self) "".

(** The methods a constructed [Eligibility] offers, as calls on the object:
    each gives the object after the call and what the call returned. *)
Inductive Eligibility_call : Type :=
| Call_eligible (age : Z) (immunocompromised job : string)
| Call_repr.

Definition Eligibility_do (self : Eligibility) (c : Eligibility_call)
  : Eligibility * string :=
  match c with
  | Call_eligible age immunocompromised job =>
      (self, eligible age immunocompromised job)
  | Call_repr => (self, Eligibility_repr self)
  end.

Definition Eligibility_run (self : Eligibility) (cs : list Eligibility_call)
  : Eligibility :=
  fold_left (fun o c => fst (Eligibility_do o c)) cs self.

(** ** Zipcode *)

(** The body of the first loop of [Zipcode.__init__]: the key is the first
    field as read, the stored "zip" is that field stripped. *)
Definition Zipcode_init_zip_line (zs : dict zipdict) (i : string)
  : result (dict zipdict) :=
  match split_on "," i with
  | [zip; lat; lng] =>
      lat' <- float_of (strip lat) ;;
      lng' <- float_of (strip lng) ;;
      Ok (set zs zip (mk_zipdict (strip zip) lat' lng'))
  | _ => Raise ValueError
  end.

(** The body of the second loop of [Zipcode.__init__]. *)
Definition Zipcode_init_location_line (ls : dict location) (i : string)
  : result (dict location) :=
  match split_on "," i with
  | [name; zip; lat; lng] =>
      lat' <- float_of (strip lat) ;;
      lng' <- float_of (strip lng) ;;
      Ok (set ls name (mk_location (strip name) (strip zip) lat' lng'))
  | _ => Raise ValueError
  end.

Fixpoint Zipcode_init_zips (zs : dict zipdict) (f : list string)
  : result (dict zipdict) :=
  match f with
  | [] => Ok zs
  | i :: rest => zs' <- Zipcode_init_zip_line zs i ;; Zipcode_init_zips zs' rest
  end.

Fixpoint Zipcode_init_locations (ls : dict location) (f : list string)
  : result (dict location) :=
  match f with
  | [] => Ok ls
  | i :: rest =>
      ls' <- Zipcode_init_location_line ls i ;; Zipcode_init_locations ls' rest
  end.

(** [Zipcode.__init__(self, file1, file2)], on the lines of the two files. *)
Definition Zipcode_init (file1 file2 : list string) : result Zipcode :=
  zs <- Zipcode_init_zips empty file1 ;;
  ls <- Zipcode_init_locations empty file2 ;;
  Ok (mk_Zipcode zs ls).

(** [Zipcode.get_latlng(self, zipcode)] *)
Definition get_latlng (self : Zipcode) (zipcode : string) : result coord :=
  zip <- getitem (zipcodes self) zipcode ;;
  Ok (zd_lat zip, zd_lng zip).

(** [sys.float_info.max] *)
Definition float_max : float := 0x1.fffffffffffffp+1023%float.

(** [not dist] for what [vincenty] returned: [None] and a zero are false
    values, every other float (a NaN too) is a true one. *)
Definition py_not (dist : option float) : bool :=
  match dist with
  | None => true
  | Some d => PrimFloat.eqb d 0%float
  end.

(** The unit [get_dist] hands to [haversine]. *)
Definition unit_of (miles : bool) : string := if miles then "mi" else "km".

(** [Zipcode.get_dist(self, p1, p2, miles)] *)
Definition get_dist (p1 p2 : coord) (miles : bool) : float :=
  let dist := vincenty p1 p2 miles in
  match dist with
  | Some d => if py_not dist then haversine p1 p2 (unit_of miles) else d
  | None => haversine p1 p2 (unit_of miles)
  end.

(** One turn of the loop of [nearest] on the entry [name], with the pair
    [(nearest_distance, nearest_name)] before and after. *)
Definition nearest_step (p1 : coord) (acc : float * string)
  (entry : string * location) : float * string :=
  let '(nearest_distance, nearest_name) := acc in
  let '(name, location) := entry in
  let p2 := (loc_lat location, loc_lng location) in
  let distance := get_dist p1 p2 false in
  if PrimFloat.ltb distance nearest_distance then (distance, name)
  else (nearest_distance, nearest_name).

Definition nearest_scan (p1 : coord) (sites : dict location)
  (acc : float * string) : float * string :=
  fold_left (nearest_step p1) sites acc.

(** [Zipcode.nearest(self, p1)]: the loop reads the entries in the
    dictionary's order. *)
Definition nearest (self : Zipcode) (p1 : coord) : string :=
  snd (nearest_scan p1 (vaccine_locations self) (float_max, "")).

(** ** The same methods with their calls recorded *)

(** [get_latlng], leaving its call in the trace. *)
Definition get_latlng_io (self : Zipcode) (zipcode : string) : io coord :=
  emit (Call_get_latlng zipcode) ;;;
  lift (get_latlng self zipcode).

(** [get_dist], leaving in the trace its call and the calls it makes:
    [vincenty] always, [haversine] when [not dist] holds. *)
Definition get_dist_io (p1 p2 : coord) (miles : bool) : io float :=
  emit (Call_get_dist p1 p2 miles) ;;;
  dist <~ (emit (Call_vincenty p1 p2 miles) ;;; ret (vincenty p1 p2 miles)) ;;
  match dist with
  | Some d =>
      if py_not dist then
        emit (Call_haversine p1 p2 (unit_of miles)) ;;;
        ret (haversine p1 p2 (unit_of miles))
      else ret d
  | None =>
      emit (Call_haversine p1 p2 (unit_of miles)) ;;;
      ret (haversine p1 p2 (unit_of miles))
  end.

Fixpoint nearest_scan_io (p1 : coord) (sites : dict location)
  (acc : float * string) : io (float * string) :=
  match sites with
  | [] => ret acc
  | (name, location) :: rest =>
      let p2 := (loc_lat location, loc_lng location) in
      distance <~ get_dist_io p1 p2 false ;;
      nearest_scan_io p1 rest
        (if PrimFloat.ltb distance (fst acc) then (distance, name) else acc)
  end.

(** [nearest], leaving its call and those of [get_dist] in the trace. *)
Definition nearest_io (self : Zipcode) (p1 : coord) : io string :=
  emit (Call_nearest p1) ;;;
  acc <~ nearest_scan_io p1 (vaccine_locations self) (float_max, "") ;;
  ret (snd acc).

(** ** main *)

(** The first [main] of the file, the one [if __name__ == "__main__"] runs:
    the three files are given by their lines, [typed] is the line [input]
    reads. *)
Definition main (zipcodes_txt vaccine_locations_txt fariba_txt : list string)
  (typed : string) : io unit :=
  zipcode <~ lift (Zipcode_init zipcodes_txt vaccine_locations_txt) ;;
  eligibility <~ lift (combined_Eligibility fariba_txt) ;;
  name <~ (emit (Input "What is your name? ") ;;; ret typed) ;;
  if mem name (info eligibility) then
    person <~ lift (getitem (info eligibility) name) ;;
    let person_zipcode := p_zipcode person in
    p1 <~ get_latlng_io zipcode person_zipcode ;;
    nearest_location <~ nearest_io zipcode p1 ;;
    emit (Print nearest_location)
  else
    emit (Print "Name not found").

End Program.

(** ** graphyes and graphno *)

Definition age_bins : list Z := [0; 25; 50; 75; 100].
Definition age_labels : list string := ["18-24"; "25-44"; "45-64"; "65-80"].

(** [pd.cut] on one value, called as the program calls it: only [x], [bins]
    and [labels] are given, so pandas' defaults [right=True] and
    [include_lowest=False] apply and the intervals are (bins[i], bins[i+1]],
    open on the left and closed on the right. [pd_cut_from x lo edges i] looks
    for the interval of [x] among those that start at [lo], the first of them
    having index [i]; a value in no interval has no group. *)
Fixpoint pd_cut_from (x lo : Z) (edges : list Z) (i : nat) : option nat :=
  match edges with
  | [] => None
  | hi :: edges' =>
      if (lo <? x) && (x <=? hi) then Some i else pd_cut_from x hi edges' (S i)
  end.

Definition pd_cut (x : Z) (bins : list Z) (labels : list string) : option string :=
  match bins with
  | [] => None
  | lo :: edges =>
      match pd_cut_from x lo edges 0 with
      | Some i => nth_error labels i
      | None => None
      end
  end.

(** The "Age Group" column: [pd.cut(x=df['age'], bins=..., labels=...)]. *)
Definition age_group (r : row) : option string :=
  pd_cut (r_age r) age_bins age_labels.

(** [df[df["age"] < 1000][df["will take vaccine?"] == answer]] *)
Definition select_answer (answer : string) (df : list row) : list row :=
  filter (fun r => String.eqb (r_will_take_vaccine r) answer)
    (filter (fun r => r_age r <? 1000) df).

Definition in_group (label : string) (r : row) : bool :=
  match age_group r with
  | Some l => String.eqb l label
  | None => false
  end.

(** [groupby("Age Group")['will take vaccine?'].count()]: one count for each
    label, in the labels' order. *)
Definition count_by_group (rows : list row) : list (string * nat) :=
  map (fun label => (label, List.length (filter (in_group label) rows))) age_labels.

(** The series [immuno] that [graphyes] plots. *)
Definition graphyes (df : list row) : list (string * nat) :=
  count_by_group (select_answer "yes" df).

(** The series [immuno] that [graphno] plots. *)
Definition graphno (df : list row) : list (string * nat) :=
  count_by_group (select_answer "no" df).

(** The age groups as the specification words them: [0,25), [25,50),
    [50,75) and [75,100), each with its lower bound and without its upper
    bound; the result is the group's label. *)
Definition spec_age_group (age : Z) : option string :=
  if (0 <=? age) && (age <? 25) then Some "18-24"
  else if (25 <=? age) && (age <? 50) then Some "25-44"
  else if (50 <=? age) && (age <? 75) then Some "45-64"
  else if (75 <=? age) && (age <? 100) then Some "65-80"
  else None.

(** The counts the specification describes for the answer [answer]. *)
Definition spec_graph (answer : string) (df : list row) : list (string * nat) :=
  map (fun label =>
         (label,
          List.length
            (filter (fun r =>
                       String.eqb (r_will_take_vaccine r) answer &&
                       match spec_age_group (r_age r) with
                       | Some l => String.eqb l label
                       | None => false
                       end) df)))
    age_labels.

(** ** Sample externals

    Small stand-ins for the functions the program imports, to run the
    definitions on concrete inputs: [int] on strings of decimal digits,
    [float] on a few literals, and a distance that is zero between equal
    coordinates, as [vincenty] and [haversine] both are. *)
Module Sample.

Definition digit_of (c : ascii) : option Z :=
  let n := nat_of_ascii c in
  if (48 <=? n)%nat && (n <=? 57)%nat then Some (Z.of_nat n - 48) else None.

Fixpoint digits_from (s : string) (acc : Z) : option Z :=
  match s with
  | EmptyString => Some acc
  | String c r =>
      match digit_of c with
      | Some d => digits_from r (10 * acc + d)
      | None => None
      end
  end.

Definition int_of_digits (s : string) : option Z :=
  match s with
  | EmptyString => None
  | _ => digits_from s 0
  end.

Definition float_of_literal (s : string) : option float :=
  if String.eqb s "38.5" then Some 38.5%float
  else if String.eqb s "-77.25" then Some (-77.25)%float
  else if String.eqb s "39.0" then Some 39%float
  else if String.eqb s "-76.5" then Some (-76.5)%float
  else None.

Definition same_coord (p1 p2 : coord) : bool :=
  PrimFloat.eqb (fst p1) (fst p2) && PrimFloat.eqb (snd p1) (snd p2).

(** The sum of the differences in latitude and in longitude. *)
Definition span (p1 p2 : coord) : float :=
  (PrimFloat.abs (fst p1 - fst p2) + PrimFloat.abs (snd p1 - snd p2))%float.

Definition flat_vincenty (p1 p2 : coord) (miles : bool) : option float :=
  if same_coord p1 p2 then Some 0%float else Some (span p1 p2).

Definition flat_haversine (p1 p2 : coord) (unit : string) : float := span p1 p2.

#[local] Instance base : Externals := {|
  py_int := int_of_digits;
  py_float := float_of_literal;
  vincenty := flat_vincenty;
  haversine := flat_haversine;
  combined_Eligibility := fun _ => Raise ValueError
|}.

(** The sample externals: [combined.Eligibility] is the class of this
    file. *)
Definition ext : Externals := {|
  py_int := int_of_digits;
  py_float := float_of_literal;
  vincenty := flat_vincenty;
  haversine := flat_haversine;
  combined_Eligibility := @Eligibility_init base
|}.

Definition newline : string := String "010" EmptyString.

Definition fariba_txt : list string :=
  ["Fariba 45 no doctor yes 02139" ++ newline;
   "Omar 30 yes clerk no 20742" ++ newline].

Definition zipcodes_txt : list string :=
  ["02139,38.5, -77.25" ++ newline; "20742,39.0, -76.5" ++ newline].

Definition vaccine_locations_txt : list string :=
  ["Clinic A,02139,38.5,-77.25" ++ newline;
   "Clinic B,02139,38.5,-77.25" ++ newline;
   "Clinic C,20742,39.0,-76.5" ++ newline].

Definition here : coord := (38.5%float, (-77.25)%float).
Definition there : coord := (39%float, (-76.5)%float).

Definition site (name zip : string) (p : coord) : string * location :=
  (name, mk_location name zip (fst p) (snd p)).

(** Two names stored with one coordinate, and a third site elsewhere. *)
Definition sites : Zipcode :=
  mk_Zipcode [] [site "Clinic A" "02139" here; site "Clinic B" "02139" here;
                 site "Clinic C" "20742" there].

(** A sites file whose one line has an empty name field, and what
    [Zipcode.__init__] loads from it. *)
Definition unnamed_txt : list string := [",02139,38.5,-77.25" ++ newline].

Definition unnamed : Zipcode := mk_Zipcode [] [site "" "02139" here].

(** What the constructors load from the sample files. *)
Definition loaded : Zipcode :=
  mk_Zipcode
    [("02139", mk_zipdict "02139" (fst here) (snd here));
     ("20742", mk_zipdict "20742" (fst there) (snd there))]
    (vaccine_locations sites).

Definition people : Eligibility :=
  mk_Eligibility
    [("Fariba", mk_person "Fariba" 45 "no" "doctor" "yes" "02139" "phase 1");
     ("Omar", mk_person "Omar" 30 "yes" "clerk" "no" "20742" "phase 2")].

(** A person of age 25 who would take the vaccine. *)
Definition ann : row := mk_row "Ann" 25 "no" "clerk" "yes" "20742".

End Sample.

(** * Properties *)

(** ** Strings and dictionaries *)

Lemma str_in_In (s : string) (l : list string) :
  str_in s l = true <-> In s l.
Proof.
  unfold str_in. rewrite existsb_exists. split.
  - intros [x [Hin Heq]]. apply String.eqb_eq in Heq. now subst.
  - intros Hin. exists s. split; [assumption | apply String.eqb_refl].
Qed.

Section DictFacts.

Context {V : Type}.
Implicit Types (d : dict V) (k : string) (v : V).

Lemma get_set_same d k v : get (set d k v) k = Some v.
Proof.
  induction d as [| [k' v'] r IH]; simpl.
  - now rewrite String.eqb_refl.
  - destruct (String.eqb k k') eqn:E; simpl; rewrite E; [reflexivity | exact IH].
Qed.

Lemma get_set_other d k k' v : k' <> k -> get (set d k v) k' = get d k'.
Proof.
  intros Hne. induction d as [| [k0 v0] r IH]; simpl.
  - apply String.eqb_neq in Hne. now rewrite Hne.
  - destruct (String.eqb k k0) eqn:E; simpl.
    + apply String.eqb_eq in E. subst k0.
      apply String.eqb_neq in Hne. now rewrite Hne.
    + now rewrite IH.
Qed.

Lemma get_Some_In_keys d k v : get d k = Some v -> In k (keys d).
Proof.
  induction d as [| [k' v'] r IH]; simpl; [discriminate |].
  destruct (String.eqb k k') eqn:E.
  - apply String.eqb_eq in E. now left.
  - intros H. right. now apply IH.
Qed.

Lemma In_keys_get d k : In k (keys d) -> exists v, get d k = Some v.
Proof.
  induction d as [| [k' v'] r IH]; simpl; [contradiction |].
  intros [Heq | Hin].
  - subst k'. rewrite String.eqb_refl. now exists v'.
  - destruct (String.eqb k k'); [now exists v' | now apply IH].
Qed.

Lemma mem_false_get d k : mem k d = false -> get d k = None.
Proof. unfold mem. now destruct (get d k). Qed.

End DictFacts.

(** ** Comparisons of floats *)

Lemma float_eqb_not_ltb (x y : float) :
  PrimFloat.eqb x y = true -> PrimFloat.ltb x y = false.
Proof.
  rewrite eqb_spec, ltb_spec. unfold SFeqb, SFltb.
  now destruct (SFcompare (Prim2SF x) (Prim2SF y)) as [[| |] |].
Qed.

(** ** The classifier *)

(** C1. [eligible] applies its three rules in order, the first that matches
    deciding: phase 1 when the age is at least 60 or the job is doctor, nurse
    or therapist; otherwise phase 2 when immunocompromised is "yes" or the
    job is cashier or teacher; otherwise phase 3. In particular an age of 60
    or more gives phase 1 whatever the other two arguments are. *)
Theorem eligible_rules (age : Z) (immunocompromised job : string) :
  let rule1 := age >= 60 \/ In job ["doctor"; "nurse"; "therapist"] in
  let rule2 := immunocompromised = "yes" \/ In job ["cashier"; "teacher"] in
  (rule1 -> eligible age immunocompromised job = "phase 1") /\
  (~ rule1 -> rule2 -> eligible age immunocompromised job = "phase 2") /\
  (~ rule1 -> ~ rule2 -> eligible age immunocompromised job = "phase 3") /\
  (age >= 60 -> eligible age immunocompromised job = "phase 1").
Proof.
  intros rule1 rule2.
  assert (H1 : (age >=? 60) || str_in job phase1_jobs = true <-> rule1).
  { unfold rule1. rewrite orb_true_iff, str_in_In, Z.geb_le.
    unfold phase1_jobs. intuition lia. }
  assert (H2 : String.eqb immunocompromised "yes" || str_in job phase2_jobs = true
               <-> rule2).
  { unfold rule2. rewrite orb_true_iff, str_in_In, String.eqb_eq. reflexivity. }
  assert (H60 : age >= 60 -> rule1) by (intros; now left).
  unfold eligible.
  destruct ((age >=? 60) || str_in job phase1_jobs) eqn:E1;
    destruct (String.eqb immunocompromised "yes" || str_in job phase2_jobs) eqn:E2;
    repeat split; intros; try reflexivity; exfalso; intuition congruence.
Qed.

Lemma eligible_rules_witness :
  65 >= 60 /\ eligible 65 "no" "clerk" = "phase 1".
Proof.
  split; [lia |].
  apply (proj2 (proj2 (proj2 (eligible_rules 65 "no" "clerk")))). lia.
Defined.

(** ** The records of [Eligibility] *)

Section EligibilityFacts.

Context {ext : Externals}.

(** The phase of every stored record is the one [eligible] gives for the
    record's own fields. *)
Definition phases_derived (d : dict person) : Prop :=
  forall name p,
    get d name = Some p ->
    p_phase p = eligible (p_age p) (p_immunocompromised p) (p_job p).

Lemma phases_derived_empty : phases_derived empty.
Proof. intros name p H. discriminate. Qed.

Lemma phases_derived_set d name age immunocompromised job preference zipcode :
  phases_derived d ->
  phases_derived
    (set d name
       (mk_person name age immunocompromised job preference zipcode
          (eligible age immunocompromised job))).
Proof.
  intros Hd k p. destruct (String.eqb_spec k name) as [-> | Hne].
  - rewrite get_set_same. intros [= <-]. reflexivity.
  - rewrite get_set_other by assumption. apply Hd.
Qed.

Lemma Eligibility_init_line_derived info0 line info1 :
  phases_derived info0 ->
  Eligibility_init_line info0 line = Ok info1 ->
  phases_derived info1.
Proof.
  intros Hd. unfold Eligibility_init_line.
  destruct (item (split_ws (strip line)) 0) as [name |]; simpl; [| discriminate].
  destruct (item (split_ws (strip line)) 1) as [age_field |]; simpl; [| discriminate].
  destruct (int_of age_field) as [age |]; simpl; [| discriminate].
  destruct (item (split_ws (strip line)) 2) as [immunocompromised |]; simpl; [| discriminate].
  destruct (item (split_ws (strip line)) 3) as [job |]; simpl; [| discriminate].
  destruct (item (split_ws (strip line)) 4) as [preference |]; simpl; [| discriminate].
  destruct (item (split_ws (strip line)) 5) as [zipcode |]; simpl; [| discriminate].
  intros [= <-]. now apply phases_derived_set.
Qed.

Lemma Eligibility_init_lines_derived f :
  forall info0 info1,
    phases_derived info0 ->
    Eligibility_init_lines info0 f = Ok info1 ->
    phases_derived info1.
Proof.
  induction f as [| line rest IH]; simpl; intros info0 info1 Hd H.
  - now injection H as <-.
  - destruct (Eligibility_init_line info0 line) as [info' |] eqn:E; simpl in H;
      [| discriminate].
    eapply IH; [| exact H]. eapply Eligibility_init_line_derived; eassumption.
Qed.

Lemma Eligibility_do_same (self : Eligibility) (c : Eligibility_call) :
  fst (Eligibility_do self c) = self.
Proof. now destruct c. Qed.

Lemma Eligibility_run_same (cs : list Eligibility_call) :
  forall self, Eligibility_run self cs = self.
Proof.
  unfold Eligibility_run.
  induction cs as [| c cs IH]; simpl; intros self; [reflexivity |].
  rewrite Eligibility_do_same. apply IH.
Qed.

(** C10. Every record [Eligibility.__init__] stores has for phase the value
    of [eligible] on the record's own age, immunocompromised and job, and
    the methods of the class leave the records as they are: after any calls
    of [eligible] and [__repr__] the object is the one constructed. *)
Theorem Eligibility_phase_invariant (f : list string) (self : Eligibility) :
  Eligibility_init f = Ok self ->
  (forall name p,
      get (info self) name = Some p ->
      p_phase p = eligible (p_age p) (p_immunocompromised p) (p_job p)) /\
  (forall cs, Eligibility_run self cs = self).
Proof.
  unfold Eligibility_init. intros H.
  destruct (Eligibility_init_lines empty f) as [d |] eqn:E; simpl in H;
    [| discriminate].
  injection H as <-. split.
  - apply (Eligibility_init_lines_derived f empty d phases_derived_empty E).
  - intros cs. apply Eligibility_run_same.
Qed.

End EligibilityFacts.

(** ** The table of zip codes *)

Section ZipcodeFacts.

Context {ext : Externals}.

(** The record [rec] stored under [z] was read from a line of [lines]: the
    last one whose first field is [z], with [float] of its stripped second
    and third fields as latitude and longitude. *)
Definition read_from (lines : list string) (z : string) (rec : zipdict) : Prop :=
  exists pre i post lat lng,
    lines = (pre ++ i :: post)%list /\
    split_on "," i = [z; lat; lng] /\
    py_float (strip lat) = Some (zd_lat rec) /\
    py_float (strip lng) = Some (zd_lng rec) /\
    (forall j, In j post -> hd_error (split_on "," j) <> Some z).

Definition table_read_from (lines : list string) (zs : dict zipdict) : Prop :=
  forall z rec, get zs z = Some rec -> read_from lines z rec.

Lemma read_from_later lines i z rec :
  read_from lines z rec ->
  hd_error (split_on "," i) <> Some z ->
  read_from (lines ++ [i])%list z rec.
Proof.
  intros (pre & i0 & post & lat & lng & -> & Hs & Hlat & Hlng & Hpost) Hi.
  exists pre, i0, (post ++ [i])%list, lat, lng.
  rewrite <- app_assoc. repeat split; try assumption.
  intros j Hj. apply in_app_or in Hj. destruct Hj as [Hj | [<- | []]]; auto.
Qed.

Lemma Zipcode_init_zip_line_read lines zs i zs' :
  table_read_from lines zs ->
  Zipcode_init_zip_line zs i = Ok zs' ->
  table_read_from (lines ++ [i])%list zs'.
Proof.
  intros Hinv. unfold Zipcode_init_zip_line.
  destruct (split_on "," i) as [| zip [| lat [| lng [| x r]]]] eqn:Es;
    try discriminate.
  unfold float_of.
  destruct (py_float (strip lat)) as [a |] eqn:Ea; simpl; [| discriminate].
  destruct (py_float (strip lng)) as [b |] eqn:Eb; simpl; [| discriminate].
  intros [= <-] z rec. destruct (String.eqb_spec z zip) as [-> | Hne].
  - rewrite get_set_same. intros [= <-].
    exists lines, i, [], lat, lng. simpl. repeat split; try assumption.
    intros j [].
  - rewrite get_set_other by assumption. intros Hget.
    apply read_from_later; [now apply Hinv |].
    rewrite Es. simpl. congruence.
Qed.

Lemma Zipcode_init_zips_read rest :
  forall lines zs zs',
    table_read_from lines zs ->
    Zipcode_init_zips zs rest = Ok zs' ->
    table_read_from (lines ++ rest)%list zs'.
Proof.
  induction rest as [| i rest IH]; simpl; intros lines zs zs' Hinv H.
  - injection H as <-. now rewrite app_nil_r.
  - destruct (Zipcode_init_zip_line zs i) as [zs1 |] eqn:E; simpl in H;
      [| discriminate].
    replace (lines ++ i :: rest)%list with ((lines ++ [i]) ++ rest)%list
      by (now rewrite <- app_assoc).
    eapply IH; [| exact H]. eapply Zipcode_init_zip_line_read; eassumption.
Qed.

Lemma Zipcode_init_zipcodes file1 file2 self :
  Zipcode_init file1 file2 = Ok self ->
  Zipcode_init_zips empty file1 = Ok (zipcodes self).
Proof.
  unfold Zipcode_init. intros H.
  destruct (Zipcode_init_zips empty file1) as [zs |]; simpl in H; [| discriminate].
  destruct (Zipcode_init_locations empty file2) as [ls |]; simpl in H;
    [| discriminate].
  now injection H as <-.
Qed.

Lemma get_latlng_stored (self : Zipcode) (z : string) (rec : zipdict) :
  get (zipcodes self) z = Some rec ->
  get_latlng self z = Ok (zd_lat rec, zd_lng rec).
Proof. intros H. unfold get_latlng, getitem. now rewrite H. Qed.

(** C6. For a zip code that is a key of the loaded table, [get_latlng]
    returns the pair of floats parsed from the line of the file that stored
    it (the last line with that first field), as they were parsed. *)
Theorem get_latlng_round_trip (file1 file2 : list string) (self : Zipcode)
  (z : string) :
  Zipcode_init file1 file2 = Ok self ->
  In z (keys (zipcodes self)) ->
  exists pre i post lat lng a b,
    file1 = (pre ++ i :: post)%list /\
    split_on "," i = [z; lat; lng] /\
    py_float (strip lat) = Some a /\
    py_float (strip lng) = Some b /\
    (forall j, In j post -> hd_error (split_on "," j) <> Some z) /\
    get_latlng self z = Ok (a, b).
Proof.
  intros Hinit Hin.
  apply Zipcode_init_zipcodes in Hinit.
  destruct (In_keys_get _ _ Hin) as [rec Hget].
  assert (Hread : table_read_from ([] ++ file1)%list (zipcodes self)).
  { eapply Zipcode_init_zips_read; [| exact Hinit]. intros k r Hk. discriminate. }
  destruct (Hread z rec Hget) as (pre & i & post & lat & lng & Hf & Hs & Ha & Hb & Hp).
  exists pre, i, post, lat, lng, (zd_lat rec), (zd_lng rec).
  repeat split; try assumption.
  now apply get_latlng_stored.
Qed.

(** ** Distances *)

Lemma get_dist_io_run (p1 p2 : coord) (miles : bool) :
  exists t, get_dist_io p1 p2 miles = (t, Ok (get_dist p1 p2 miles)).
Proof.
  unfold get_dist_io, get_dist, bind, emit, ret. simpl.
  destruct (vincenty p1 p2 miles) as [d |]; simpl.
  - destruct (PrimFloat.eqb d 0); simpl; eexists; reflexivity.
  - eexists; reflexivity.
Qed.

(** C3, as the code has it. [get_dist] calls [haversine] exactly when what
    [vincenty] returned is a false value: [None], or a float equal to zero.
    Then the result is [haversine]'s; a float other than zero returned by
    [vincenty] is the result, unchanged. *)
Theorem get_dist_fallback_rule (p1 p2 : coord) (miles : bool) :
  (In (Call_haversine p1 p2 (unit_of miles)) (fst (get_dist_io p1 p2 miles)) <->
   vincenty p1 p2 miles = None \/
   exists d, vincenty p1 p2 miles = Some d /\ PrimFloat.eqb d 0 = true) /\
  (forall d,
      vincenty p1 p2 miles = Some d -> PrimFloat.eqb d 0 = false ->
      get_dist p1 p2 miles = d /\ snd (get_dist_io p1 p2 miles) = Ok d) /\
  (forall d,
      vincenty p1 p2 miles = Some d -> PrimFloat.eqb d 0 = true ->
      get_dist p1 p2 miles = haversine p1 p2 (unit_of miles)) /\
  (vincenty p1 p2 miles = None ->
   get_dist p1 p2 miles = haversine p1 p2 (unit_of miles)).
Proof.
  unfold get_dist_io, get_dist, bind, emit, ret. simpl.
  destruct (vincenty p1 p2 miles) as [d |] eqn:Ev; simpl.
  - destruct (PrimFloat.eqb d 0) eqn:Ez; simpl;
      (split; [split | split; [| split]]).
    + intros _. right. now exists d.
    + intros _. right. right. now left.
    + intros d' [= <-] Hd. congruence.
    + now intros d' [= <-] _.
    + discriminate.
    + intros [Hin | [Hin | []]]; discriminate.
    + intros [Hn | (d' & [= <-] & Hd)]; [discriminate | congruence].
    + now intros d' [= <-] _.
    + intros d' [= <-] Hd. congruence.
    + discriminate.
  - split; [split | split; [| split]]; try discriminate.
    + intros _. now left.
    + intros _. right. right. now left.
    + reflexivity.
Qed.

(** ** The nearest site *)

(** The distance [nearest] computes for a site. *)
Definition site_distance (p1 : coord) (l : location) : float :=
  get_dist p1 (loc_lat l, loc_lng l) false.

Lemma nearest_step_eq p1 nearest_distance nearest_name name l :
  nearest_step p1 (nearest_distance, nearest_name) (name, l) =
  if PrimFloat.ltb (site_distance p1 l) nearest_distance
  then (site_distance p1 l, name)
  else (nearest_distance, nearest_name).
Proof. reflexivity. Qed.

Lemma nearest_scan_cons p1 entry sites acc :
  nearest_scan p1 (entry :: sites) acc =
  nearest_scan p1 sites (nearest_step p1 acc entry).
Proof. reflexivity. Qed.

(** Sites that are not nearer than the current minimum leave it. *)
Lemma nearest_scan_none_nearer p1 sites :
  forall acc,
    (forall n l, In (n, l) sites ->
                 PrimFloat.ltb (site_distance p1 l) (fst acc) = false) ->
    nearest_scan p1 sites acc = acc.
Proof.
  induction sites as [| [n l] rest IH]; intros [nd nn] H; [reflexivity |].
  rewrite nearest_scan_cons, nearest_step_eq.
  pose proof (H n l (or_introl eq_refl)) as Hn. simpl in Hn. rewrite Hn.
  apply IH. intros n' l' Hin. apply (H n' l'). now right.
Qed.

(** The scan ends on a key of the sites, or where it started when no site
    was nearer than the starting distance. *)
Lemma nearest_scan_key_or_start p1 sites :
  forall acc,
    In (snd (nearest_scan p1 sites acc)) (keys sites) \/
    (nearest_scan p1 sites acc = acc /\
     forall n l, In (n, l) sites ->
                 PrimFloat.ltb (site_distance p1 l) (fst acc) = false).
Proof.
  induction sites as [| [n l] rest IH]; intros [nd nn].
  - right. split; [reflexivity | intros n l []].
  - rewrite nearest_scan_cons, nearest_step_eq.
    destruct (PrimFloat.ltb (site_distance p1 l) nd) eqn:E.
    + left. destruct (IH (site_distance p1 l, n)) as [Hin | [Heq _]].
      * now right.
      * rewrite Heq. now left.
    + destruct (IH (nd, nn)) as [Hin | [Heq Hall]].
      * left. now right.
      * right. split; [exact Heq |].
        intros n' l' [[= <- <-] | Hin]; [exact E | now apply (Hall n')].
Qed.

(** The first site that is strictly nearer than every site before it and
    than the starting distance, and that no later site beats, is the one
    the scan returns. *)
Lemma nearest_scan_first_min p1 name l post :
  forall pre acc,
    PrimFloat.ltb (site_distance p1 l) (fst acc) = true ->
    (forall n' l', In (n', l') pre ->
                   PrimFloat.ltb (site_distance p1 l) (site_distance p1 l') = true) ->
    (forall n' l', In (n', l') post ->
                   PrimFloat.ltb (site_distance p1 l') (site_distance p1 l) = false) ->
    nearest_scan p1 (pre ++ (name, l) :: post)%list acc = (site_distance p1 l, name).
Proof.
  induction pre as [| [n0 l0] pre IH]; intros [nd nn] Hacc Hpre Hpost.
  - simpl app. rewrite nearest_scan_cons, nearest_step_eq.
    simpl in Hacc. rewrite Hacc.
    now apply nearest_scan_none_nearer.
  - simpl app. rewrite nearest_scan_cons, nearest_step_eq.
    apply IH.
    + destruct (PrimFloat.ltb (site_distance p1 l0) nd); simpl.
      * apply (Hpre n0 l0). now left.
      * exact Hacc.
    + intros n' l' Hin. apply (Hpre n' l'). now right.
    + exact Hpost.
Qed.

Lemma float_max_above_zero : PrimFloat.ltb 0 float_max = true.
Proof. reflexivity. Qed.

(** C2, as the code has it. On an empty mapping [nearest] returns the empty
    string. When some site's distance is below [sys.float_info.max], the
    result is a key of the mapping. The empty string is returned only when
    the mapping is empty, or the empty string is one of its keys, or no
    site's distance is below [sys.float_info.max]. *)
Theorem nearest_returns_key (self : Zipcode) (p1 : coord) :
  (vaccine_locations self = [] -> nearest self p1 = "") /\
  ((exists name l,
       In (name, l) (vaccine_locations self) /\
       PrimFloat.ltb (get_dist p1 (loc_lat l, loc_lng l) false) float_max = true) ->
   In (nearest self p1) (keys (vaccine_locations self))) /\
  (nearest self p1 = "" ->
   vaccine_locations self = [] \/
   In "" (keys (vaccine_locations self)) \/
   forall name l,
     In (name, l) (vaccine_locations self) ->
     PrimFloat.ltb (get_dist p1 (loc_lat l, loc_lng l) false) float_max = false).
Proof.
  unfold nearest.
  destruct (nearest_scan_key_or_start p1 (vaccine_locations self) (float_max, ""))
    as [Hin | [Heq Hall]].
  - split; [| split].
    + intros E. now rewrite E.
    + intros _. exact Hin.
    + intros E. rewrite E in Hin. right. now left.
  - split; [| split].
    + intros E. now rewrite E.
    + intros (name & l & Hin & Hlt).
      pose proof (Hall name l Hin) as Hge. unfold site_distance in Hge.
      simpl in Hge. congruence.
    + intros _. right. right. exact Hall.
Qed.

(** C4, as the code has it. Let the query be the stored coordinate of a
    site, with [get_dist] zero from the query to itself and below zero for no
    site. When every site before that one in the mapping's order is at a
    distance above zero, [nearest] returns that site's name. *)
Theorem nearest_coincident_site (self : Zipcode) (p1 : coord)
  (pre post : dict location) (name : string) (l : location) :
  vaccine_locations self = (pre ++ (name, l) :: post)%list ->
  p1 = (loc_lat l, loc_lng l) ->
  get_dist p1 p1 false = 0%float ->
  (forall n' l', In (n', l') (vaccine_locations self) ->
                 PrimFloat.ltb (get_dist p1 (loc_lat l', loc_lng l') false) 0 = false) ->
  (forall n' l', In (n', l') pre ->
                 PrimFloat.ltb 0 (get_dist p1 (loc_lat l', loc_lng l') false) = true) ->
  nearest self p1 = name.
Proof.
  intros Hsites Hp Hzero Hnonneg Hpre. unfold nearest. rewrite Hsites.
  assert (Hd : site_distance p1 l = 0%float).
  { unfold site_distance. now rewrite <- Hp. }
  rewrite (nearest_scan_first_min p1 name l post pre (float_max, "")).
  - reflexivity.
  - rewrite Hd. exact float_max_above_zero.
  - intros n' l' Hin. rewrite Hd. now apply (Hpre n').
  - intros n' l' Hin. rewrite Hd. apply (Hnonneg n').
    rewrite Hsites. apply in_or_app. right. now right.
Qed.

(** C5. Among the sites at the least distance, [nearest] returns the first
    in the mapping's order: the site whose distance is below
    [sys.float_info.max], strictly below that of every earlier site and not
    above that of any later site. In the loop, a site whose distance equals
    the current minimum leaves the minimum and its name as they are. *)
Theorem nearest_ties_keep_first (self : Zipcode) (p1 : coord)
  (pre post : dict location) (name : string) (l : location) :
  let d := get_dist p1 (loc_lat l, loc_lng l) false in
  vaccine_locations self = (pre ++ (name, l) :: post)%list ->
  PrimFloat.ltb d float_max = true ->
  (forall n' l', In (n', l') pre ->
                 PrimFloat.ltb d (get_dist p1 (loc_lat l', loc_lng l') false) = true) ->
  (forall n' l', In (n', l') post ->
                 PrimFloat.ltb (get_dist p1 (loc_lat l', loc_lng l') false) d = false) ->
  nearest self p1 = name /\
  (forall nearest_distance nearest_name n' l',
      PrimFloat.eqb (get_dist p1 (loc_lat l', loc_lng l') false) nearest_distance = true ->
      nearest_step p1 (nearest_distance, nearest_name) (n', l') =
      (nearest_distance, nearest_name)).
Proof.
  intros d Hsites Hmax Hpre Hpost. split.
  - unfold nearest. rewrite Hsites.
    now rewrite (nearest_scan_first_min p1 name l post pre (float_max, "")).
  - intros nd nn n' l' Heq. rewrite nearest_step_eq.
    unfold site_distance. now rewrite (float_eqb_not_ltb _ _ Heq).
Qed.

(** ** The calls [nearest] makes *)

Lemma nearest_scan_io_run p1 sites :
  forall acc,
    exists t, nearest_scan_io p1 sites acc = (t, Ok (nearest_scan p1 sites acc)).
Proof.
  induction sites as [| [n l] rest IH]; intros [nd nn].
  - eexists; reflexivity.
  - rewrite nearest_scan_cons, nearest_step_eq. unfold site_distance.
    destruct (get_dist_io_run p1 (loc_lat l, loc_lng l) false) as [t Ht].
    cbn [nearest_scan_io fst]. unfold bind at 1. rewrite Ht.
    destruct (IH (if PrimFloat.ltb (get_dist p1 (loc_lat l, loc_lng l) false) nd
                  then (get_dist p1 (loc_lat l, loc_lng l) false, n)
                  else (nd, nn))) as [t' Ht'].
    rewrite Ht'. eexists; reflexivity.
Qed.

(** The recorded [nearest] returns what [nearest] returns. *)
Lemma nearest_io_run (self : Zipcode) (p1 : coord) :
  exists t, nearest_io self p1 = (Call_nearest p1 :: t, Ok (nearest self p1)).
Proof.
  unfold nearest_io, nearest.
  destruct (nearest_scan_io_run p1 (vaccine_locations self) (float_max, ""))
    as [t Ht].
  unfold bind, emit, ret. rewrite Ht. simpl.
  eexists; reflexivity.
Qed.

(** ** main *)

(** C7. With the files loaded and a typed name that is not a key of the
    individuals' mapping, [main] asks for the name, prints "Name not found"
    and returns: its trace has that one print and no call of [get_latlng],
    [nearest], [get_dist], [vincenty] or [haversine]. *)
Theorem main_name_not_found
  (zipcodes_txt vaccine_locations_txt fariba_txt : list string) (typed : string)
  (zipcode : Zipcode) (eligibility : Eligibility) :
  Zipcode_init zipcodes_txt vaccine_locations_txt = Ok zipcode ->
  combined_Eligibility fariba_txt = Ok eligibility ->
  mem typed (info eligibility) = false ->
  let run := main zipcodes_txt vaccine_locations_txt fariba_txt typed in
  run = ([Input "What is your name? "; Print "Name not found"], Ok tt) /\
  filter is_print (fst run) = [Print "Name not found"] /\
  filter is_call (fst run) = [].
Proof.
  intros Hz He Hmem run. unfold run, main, lift, bind at 1.
  rewrite Hz. unfold bind at 1. rewrite He.
  unfold bind, emit, ret. simpl. rewrite Hmem. simpl.
  repeat split.
Qed.

(** C8. For a zip code that is not a key of the loaded table, [get_latlng]
    raises [KeyError]; [main], its caller, does not handle it: for a person
    with such a zip code the run ends with that [KeyError] after the call of
    [get_latlng], with nothing printed. *)
Theorem get_latlng_absent_raises (self : Zipcode) (z : string) :
  mem z (zipcodes self) = false ->
  get_latlng self z = Raise (KeyError z) /\
  (forall zipcodes_txt vaccine_locations_txt fariba_txt typed eligibility person,
      Zipcode_init zipcodes_txt vaccine_locations_txt = Ok self ->
      combined_Eligibility fariba_txt = Ok eligibility ->
      get (info eligibility) typed = Some person ->
      p_zipcode person = z ->
      main zipcodes_txt vaccine_locations_txt fariba_txt typed =
      ([Input "What is your name? "; Call_get_latlng z], Raise (KeyError z))).
Proof.
  intros Hmem.
  assert (Hraise : get_latlng self z = Raise (KeyError z)).
  { unfold get_latlng, getitem. now rewrite (mem_false_get _ _ Hmem). }
  split; [exact Hraise |].
  intros f1 f2 f3 typed e person Hz He Hget Hzip.
  unfold main, lift, bind at 1. rewrite Hz. unfold bind at 1. rewrite He.
  unfold bind at 1. unfold emit, ret, bind at 1. simpl.
  unfold mem, getitem. rewrite Hget. simpl.
  unfold get_latlng_io, lift, emit, bind. rewrite Hzip, Hraise. reflexivity.
Qed.

End ZipcodeFacts.

(** ** The age groups of the charts *)

Lemma filter_filter_andb {A : Type} (f g : A -> bool) (l : list A) :
  filter f (filter g l) = filter (fun x => g x && f x) l.
Proof.
  induction l as [| x l IH]; simpl; [reflexivity |].
  destruct (g x); simpl; [destruct (f x) |]; now rewrite IH.
Qed.

Ltac compare_ages :=
  repeat match goal with
    | |- context [Z.ltb ?a ?b] => destruct (Z.ltb_spec a b)
    | |- context [Z.leb ?a ?b] => destruct (Z.leb_spec a b)
    end;
  simpl; try reflexivity; try lia.

(** The group [pd.cut] gives an age: the interval that is open at its lower
    edge and closed at its upper edge. *)
Lemma age_group_intervals (r : row) :
  age_group r =
  if (0 <? r_age r) && (r_age r <=? 25) then Some "18-24"
  else if (25 <? r_age r) && (r_age r <=? 50) then Some "25-44"
  else if (50 <? r_age r) && (r_age r <=? 75) then Some "45-64"
  else if (75 <? r_age r) && (r_age r <=? 100) then Some "65-80"
  else None.
Proof.
  unfold age_group, pd_cut, age_bins, age_labels. simpl. compare_ages.
Qed.

(** The rows counted under a label, for the four labels and their edges. *)
Lemma in_group_interval (r : row) (i : nat) (label : string) (lo hi : Z) :
  In (i, label, lo, hi)
     [(0%nat, "18-24", 0, 25); (1%nat, "25-44", 25, 50);
      (2%nat, "45-64", 50, 75); (3%nat, "65-80", 75, 100)] ->
  (r_age r <? 1000) && in_group label r = (lo <? r_age r) && (r_age r <=? hi).
Proof.
  unfold in_group. rewrite age_group_intervals.
  intros [H | [H | [H | [H | []]]]]; injection H as <- <- <- <-; compare_ages.
Qed.

Lemma count_answer_group (answer label : string) (i : nat) (lo hi : Z)
  (df : list row) :
  In (i, label, lo, hi)
     [(0%nat, "18-24", 0, 25); (1%nat, "25-44", 25, 50);
      (2%nat, "45-64", 50, 75); (3%nat, "65-80", 75, 100)] ->
  filter (in_group label) (select_answer answer df) =
  filter (fun r => String.eqb (r_will_take_vaccine r) answer &&
                   ((lo <? r_age r) && (r_age r <=? hi))) df.
Proof.
  intros Hin. unfold select_answer. rewrite !filter_filter_andb.
  apply filter_ext. intros r.
  rewrite <- (in_group_interval r i label lo hi Hin).
  destruct (r_age r <? 1000), (String.eqb (r_will_take_vaccine r) answer),
    (in_group label r); reflexivity.
Qed.

(** C9, as the code has it. [graphyes] counts the individuals whose answer
    is "yes" and [graphno] those whose answer is "no", by age in the groups
    (0, 25], (25, 50], (50, 75] and (75, 100]: a group has its upper bound
    and not its lower bound, and an age of 0 or less or above 100 is in no
    group. *)
Theorem graph_counts_by_age_group (df : list row) :
  let count answer lo hi :=
    List.length
      (filter (fun r => String.eqb (r_will_take_vaccine r) answer &&
                        ((lo <? r_age r) && (r_age r <=? hi))) df) in
  graphyes df =
    [("18-24", count "yes" 0 25); ("25-44", count "yes" 25 50);
     ("45-64", count "yes" 50 75); ("65-80", count "yes" 75 100)] /\
  graphno df =
    [("18-24", count "no" 0 25); ("25-44", count "no" 25 50);
     ("45-64", count "no" 50 75); ("65-80", count "no" 75 100)].
Proof.
  intros count. unfold graphyes, graphno, count_by_group, age_labels, count.
  simpl map.
  split;
    rewrite (count_answer_group _ "18-24" 0 0 25), (count_answer_group _ "25-44" 1 25 50),
      (count_answer_group _ "45-64" 2 50 75), (count_answer_group _ "65-80" 3 75 100);
    simpl; tauto.
Qed.

(** * The theorems on the sample inputs *)

Import Sample.

Lemma Eligibility_phase_invariant_witness :
  Eligibility_init (ext := base) fariba_txt = Ok people /\
  (forall name p,
      get (info people) name = Some p ->
      p_phase p = eligible (p_age p) (p_immunocompromised p) (p_job p)) /\
  (forall cs, Eligibility_run people cs = people).
Proof.
  split; [reflexivity |].
  apply (Eligibility_phase_invariant (ext := base) fariba_txt people).
  reflexivity.
Defined.

Lemma get_latlng_round_trip_witness :
  Zipcode_init (ext := ext) zipcodes_txt vaccine_locations_txt = Ok loaded /\
  In "20742" (keys (zipcodes loaded)) /\
  exists pre i post lat lng a b,
    zipcodes_txt = (pre ++ i :: post)%list /\
    split_on "," i = ["20742"; lat; lng] /\
    py_float (Externals := ext) (strip lat) = Some a /\
    py_float (Externals := ext) (strip lng) = Some b /\
    (forall j, In j post -> hd_error (split_on "," j) <> Some "20742") /\
    get_latlng loaded "20742" = Ok (a, b).
Proof.
  split; [reflexivity |]. split; [simpl; tauto |].
  apply (get_latlng_round_trip (ext := ext) zipcodes_txt vaccine_locations_txt
           loaded "20742").
  - reflexivity.
  - simpl. tauto.
Defined.

Lemma get_dist_fallback_rule_witness :
  vincenty (Externals := ext) here there false = Some 1.25%float /\
  get_dist (ext := ext) here there false = 1.25%float.
Proof.
  split; [reflexivity |].
  apply (proj1 (proj2 (get_dist_fallback_rule (ext := ext) here there false)));
    reflexivity.
Defined.

(** C3 as it is stated fails where [vincenty] returns a zero: between equal
    coordinates it gives the finite distance 0.0, not [None], and [get_dist]
    calls [haversine] all the same. *)
Lemma get_dist_zero_counterexample :
  vincenty (Externals := ext) here here false = Some 0%float /\
  ~ (In (Call_haversine here here "km") (fst (get_dist_io (ext := ext) here here false)) <->
     vincenty (Externals := ext) here here false = None).
Proof.
  split; [reflexivity |].
  intros [Hcalled _].
  assert (H : vincenty (Externals := ext) here here false = None).
  { apply Hcalled. simpl. tauto. }
  discriminate H.
Qed.

Lemma nearest_returns_key_witness :
  (exists name l,
      In (name, l) (vaccine_locations sites) /\
      PrimFloat.ltb (get_dist (ext := ext) there (loc_lat l, loc_lng l) false) float_max = true) /\
  In (nearest (ext := ext) sites there) (keys (vaccine_locations sites)).
Proof.
  assert (H : exists name l,
             In (name, l) (vaccine_locations sites) /\
             PrimFloat.ltb (get_dist (ext := ext) there (loc_lat l, loc_lng l) false)
               float_max = true).
  { exists "Clinic C", (snd (site "Clinic C" "20742" there)).
    split; [simpl; tauto | reflexivity]. }
  split; [exact H |].
  exact (proj1 (proj2 (nearest_returns_key (ext := ext) sites there)) H).
Defined.

(** C2 as it is stated fails on a mapping whose one key is the empty string
    (a line of the sites file that starts with a comma): [nearest] returns
    the empty string and the mapping is not empty. *)
Lemma nearest_empty_name_counterexample :
  Zipcode_init (ext := ext) [] unnamed_txt = Ok unnamed /\
  ~ (nearest (ext := ext) unnamed there = "" -> vaccine_locations unnamed = []).
Proof.
  split; [reflexivity |].
  intros H. specialize (H eq_refl). discriminate H.
Qed.

Lemma nearest_coincident_site_witness :
  vaccine_locations sites =
    ([] ++ site "Clinic A" "02139" here
        :: [site "Clinic B" "02139" here; site "Clinic C" "20742" there])%list /\
  nearest (ext := ext) sites here = "Clinic A".
Proof.
  split; [reflexivity |].
  apply (nearest_coincident_site (ext := ext) sites here []
           [site "Clinic B" "02139" here; site "Clinic C" "20742" there]
           "Clinic A" (snd (site "Clinic A" "02139" here))).
  - reflexivity.
  - reflexivity.
  - reflexivity.
  - intros n' l' [H | [H | [H | []]]]; injection H as <- <-; reflexivity.
  - intros n' l' [].
Defined.

(** C4 as it is stated fails when two names are stored with one
    coordinate: queried at the coordinate of "Clinic B", [nearest] returns
    "Clinic A", which comes first. *)
Lemma nearest_coincident_counterexample :
  ~ (forall name l,
        In (name, l) (vaccine_locations sites) ->
        here = (loc_lat l, loc_lng l) ->
        nearest (ext := ext) sites here = name).
Proof.
  intros H.
  specialize (H "Clinic B" (snd (site "Clinic B" "02139" here))).
  assert (E : nearest (ext := ext) sites here = "Clinic B").
  { apply H; [simpl; tauto | reflexivity]. }
  discriminate E.
Qed.

Lemma nearest_ties_keep_first_witness :
  PrimFloat.eqb
    (get_dist (ext := ext) here
       (loc_lat (snd (site "Clinic B" "02139" here)),
        loc_lng (snd (site "Clinic B" "02139" here))) false)
    (get_dist (ext := ext) here
       (loc_lat (snd (site "Clinic A" "02139" here)),
        loc_lng (snd (site "Clinic A" "02139" here))) false) = true /\
  nearest (ext := ext)
    (mk_Zipcode [] [site "Clinic C" "20742" there; site "Clinic A" "02139" here;
                    site "Clinic B" "02139" here])
    here = "Clinic A".
Proof.
  split; [reflexivity |].
  apply (nearest_ties_keep_first (ext := ext)
           (mk_Zipcode [] [site "Clinic C" "20742" there; site "Clinic A" "02139" here;
                           site "Clinic B" "02139" here])
           here [site "Clinic C" "20742" there] [site "Clinic B" "02139" here]
           "Clinic A" (snd (site "Clinic A" "02139" here))).
  - reflexivity.
  - reflexivity.
  - intros n' l' [H | []]; injection H as <- <-; reflexivity.
  - intros n' l' [H | []]; injection H as <- <-; reflexivity.
Defined.

Lemma main_name_not_found_witness :
  mem "Nobody" (info people) = false /\
  main (ext := ext) zipcodes_txt vaccine_locations_txt fariba_txt "Nobody" =
  ([Input "What is your name? "; Print "Name not found"], Ok tt).
Proof.
  split; [reflexivity |].
  apply (main_name_not_found (ext := ext) zipcodes_txt vaccine_locations_txt
           fariba_txt "Nobody" loaded people); reflexivity.
Defined.

Lemma get_latlng_absent_raises_witness :
  mem "02139" (zipcodes sites) = false /\
  get_latlng sites "02139" = Raise (KeyError "02139") /\
  main (ext := ext) [] vaccine_locations_txt fariba_txt "Fariba" =
  ([Input "What is your name? "; Call_get_latlng "02139"],
   Raise (KeyError "02139")).
Proof.
  split; [reflexivity |].
  destruct (get_latlng_absent_raises (ext := ext) sites "02139" eq_refl)
    as [Hraise Hmain].
  split; [exact Hraise |].
  apply (Hmain [] vaccine_locations_txt fariba_txt "Fariba" people
           (mk_person "Fariba" 45 "no" "doctor" "yes" "02139" "phase 1"));
    reflexivity.
Defined.

Lemma graph_counts_by_age_group_witness :
  graphyes [ann] =
  [("18-24", 1%nat); ("25-44", 0%nat); ("45-64", 0%nat); ("65-80", 0%nat)].
Proof.
  exact (proj1 (graph_counts_by_age_group [ann])).
Defined.

(** C9 as it is stated fails at the age 25: the specification's groups put
    it in [25, 50), the second, and the chart counts it in the first. *)
Lemma graphyes_bins_counterexample :
  spec_age_group (r_age ann) = Some "25-44" /\
  age_group ann = Some "18-24" /\
  graphyes [ann] <> spec_graph "yes" [ann].
Proof.
  repeat split. discriminate.
Qed.

(** * Further properties of the program *)

(** ** The order of floats *)

Lemma SFltb_irrefl (x : spec_float) : SFltb x x = false.
Proof.
  unfold SFltb, SFcompare.
  destruct x as [s | s | | s m e]; try (destruct s; reflexivity); try reflexivity.
  rewrite Z.compare_refl. change (Pos.compare_cont Eq m m) with (Pos.compare m m).
  rewrite Pos.compare_refl. now destruct s.
Qed.

Lemma SFltb_trans (x y z : spec_float) :
  SFltb x y = true -> SFltb y z = true -> SFltb x z = true.
Proof.
  unfold SFltb, SFcompare.
  destruct x as [sx | sx | | sx mx ex], y as [sy | sy | | sy my ey],
    z as [sz | sz | | sz mz ez];
    try discriminate;
    try (destruct sx; try discriminate); try (destruct sy; try discriminate);
    try (destruct sz; try discriminate); try reflexivity;
    change (Pos.compare_cont Eq) with Pos.compare;
    repeat match goal with
      | |- context [Z.compare ?a ?b] => destruct (Z.compare_spec a b)
      | |- context [Pos.compare ?a ?b] => destruct (Pos.compare_spec a b)
      end; simpl; try discriminate; try reflexivity; intros; subst; try lia.
Qed.

Lemma float_ltb_irrefl (x : float) : PrimFloat.ltb x x = false.
Proof. rewrite ltb_spec. apply SFltb_irrefl. Qed.

Lemma float_ltb_trans (x y z : float) :
  PrimFloat.ltb x y = true -> PrimFloat.ltb y z = true -> PrimFloat.ltb x z = true.
Proof. rewrite !ltb_spec. apply SFltb_trans. Qed.

(** [y] is below [z] and [x] is not below [z]: [x] is not below [y]. *)
Lemma float_not_ltb_below (x y z : float) :
  PrimFloat.ltb y z = true -> PrimFloat.ltb x z = false -> PrimFloat.ltb x y = false.
Proof.
  intros Hyz Hxz. destruct (PrimFloat.ltb x y) eqn:Hxy; [| reflexivity].
  rewrite (float_ltb_trans x y z Hxy Hyz) in Hxz. discriminate.
Qed.

Section NearestFacts.

Context {ext : Externals}.

(** What the scan keeps: the distance it ends with is the starting one or
    below it, no site read is nearer than it, and when the pair changed it
    is the distance of a site stored under the name it ends with. *)
Lemma nearest_scan_least p1 sites :
  forall acc,
    (nearest_scan p1 sites acc = acc \/
     PrimFloat.ltb (fst (nearest_scan p1 sites acc)) (fst acc) = true) /\
    (forall n l, In (n, l) sites ->
       PrimFloat.ltb (site_distance p1 l) (fst (nearest_scan p1 sites acc)) = false) /\
    (nearest_scan p1 sites acc = acc \/
     exists l, In (snd (nearest_scan p1 sites acc), l) sites /\
               fst (nearest_scan p1 sites acc) = site_distance p1 l).
Proof.
  induction sites as [| [n l] rest IH]; intros [nd nn].
  - repeat split; try (now left). intros n l [].
  - rewrite nearest_scan_cons, nearest_step_eq.
    destruct (PrimFloat.ltb (site_distance p1 l) nd) eqn:E.
    + destruct (IH (site_distance p1 l, n)) as (Hle & Hall & Hsite).
      simpl fst in *. split; [| split].
      * right. destruct Hle as [-> | Hlt]; [exact E |].
        exact (float_ltb_trans _ _ _ Hlt E).
      * intros n' l' [[= <- <-] | Hin]; [| now apply (Hall n')].
        destruct Hle as [-> | Hlt]; [apply float_ltb_irrefl |].
        eapply float_not_ltb_below; [exact Hlt | apply float_ltb_irrefl].
      * right. destruct Hsite as [-> | (l0 & Hin & Hd)].
        -- exists l. split; [now left | reflexivity].
        -- exists l0. split; [now right | exact Hd].
    + destruct (IH (nd, nn)) as (Hle & Hall & Hsite).
      simpl fst in *. split; [| split].
      * exact Hle.
      * intros n' l' [[= <- <-] | Hin]; [| now apply (Hall n')].
        destruct Hle as [-> | Hlt]; [exact E |].
        eapply float_not_ltb_below; [exact Hlt | exact E].
      * destruct Hsite as [Heq | (l0 & Hin & Hd)]; [now left |].
        right. exists l0. split; [now right | exact Hd].
Qed.

(** X1. When some site's distance is below [sys.float_info.max], the name
    [nearest] returns is stored with a site that no site of the mapping is
    strictly nearer than. *)
Theorem nearest_is_nearest (self : Zipcode) (p1 : coord) :
  (exists name l,
      In (name, l) (vaccine_locations self) /\
      PrimFloat.ltb (get_dist p1 (loc_lat l, loc_lng l) false) float_max = true) ->
  exists l,
    In (nearest self p1, l) (vaccine_locations self) /\
    PrimFloat.ltb (get_dist p1 (loc_lat l, loc_lng l) false) float_max = true /\
    forall n' l',
      In (n', l') (vaccine_locations self) ->
      PrimFloat.ltb (get_dist p1 (loc_lat l', loc_lng l') false)
        (get_dist p1 (loc_lat l, loc_lng l) false) = false.
Proof.
  intros (name & l0 & Hin0 & Hlt0). unfold nearest.
  destruct (nearest_scan_least p1 (vaccine_locations self) (float_max, ""))
    as (Hle & Hall & Hsite).
  assert (Hne : nearest_scan p1 (vaccine_locations self) (float_max, "")
                <> (float_max, "")).
  { intros Heq. pose proof (Hall name l0 Hin0) as H. rewrite Heq in H.
    unfold site_distance in H. simpl in H. congruence. }
  destruct Hsite as [Heq | (l & Hin & Hd)]; [contradiction |].
  destruct Hle as [Heq | Hlt]; [contradiction |].
  exists l. unfold site_distance in *. rewrite <- Hd.
  split; [exact Hin | split; [exact Hlt | exact Hall]].
Qed.

Lemma set_new_key {V : Type} (d : dict V) (k : string) (v : V) :
  mem k d = false -> set d k v = (d ++ [(k, v)])%list.
Proof.
  unfold mem. induction d as [| [k' v'] r IH]; simpl; [reflexivity |].
  destruct (String.eqb k k'); [discriminate |].
  intros H. now rewrite IH.
Qed.

(** X2. A site stored under a new name, as the loop of [Zipcode.__init__]
    stores it, either leaves the answer of [nearest] as it was or becomes
    the answer. *)
Theorem nearest_with_one_more_site (self : Zipcode) (p1 : coord)
  (name : string) (l : location) :
  mem name (vaccine_locations self) = false ->
  let self' := mk_Zipcode (zipcodes self) (set (vaccine_locations self) name l) in
  nearest self' p1 = nearest self p1 \/ nearest self' p1 = name.
Proof.
  intros Hnew. unfold nearest, nearest_scan. simpl.
  rewrite (set_new_key _ _ _ Hnew), fold_left_app. simpl.
  destruct (fold_left (nearest_step p1) (vaccine_locations self) (float_max, ""))
    as [nd nn].
  rewrite nearest_step_eq.
  destruct (PrimFloat.ltb (site_distance p1 l) nd); [now right | now left].
Qed.

(** ** The calls of a run *)

Definition is_get_dist (e : event) : bool :=
  match e with
  | Call_get_dist _ _ _ => true
  | _ => false
  end.

Lemma bind_ok {A B : Type} (m : io A) (k : A -> io B) (t : list event) (a : A) :
  m = (t, Ok a) -> bind m k = ((t ++ fst (k a))%list, snd (k a)).
Proof. intros ->. unfold bind. now destruct (k a). Qed.

Lemma get_dist_io_trace (p1 p2 : coord) (miles : bool) :
  exists t,
    get_dist_io p1 p2 miles =
      (Call_get_dist p1 p2 miles :: t, Ok (get_dist p1 p2 miles)) /\
    filter is_get_dist t = [] /\ filter is_print t = [].
Proof.
  unfold get_dist_io, get_dist, bind, emit, ret. simpl.
  destruct (vincenty p1 p2 miles) as [d |]; simpl.
  - destruct (PrimFloat.eqb d 0); simpl; eexists; repeat split.
  - eexists; repeat split.
Qed.

Lemma nearest_scan_io_trace p1 sites :
  forall acc,
    exists t,
      nearest_scan_io p1 sites acc = (t, Ok (nearest_scan p1 sites acc)) /\
      filter is_get_dist t =
        map (fun entry =>
               Call_get_dist p1 (loc_lat (snd entry), loc_lng (snd entry)) false)
          sites /\
      filter is_print t = [].
Proof.
  induction sites as [| [n l] rest IH]; intros [nd nn].
  - exists []. repeat split.
  - rewrite nearest_scan_cons, nearest_step_eq. unfold site_distance.
    destruct (get_dist_io_trace p1 (loc_lat l, loc_lng l) false)
      as (t & Ht & Hgd & Hpr).
    destruct (IH (if PrimFloat.ltb (get_dist p1 (loc_lat l, loc_lng l) false) nd
                  then (get_dist p1 (loc_lat l, loc_lng l) false, n)
                  else (nd, nn))) as (t' & Ht' & Hgd' & Hpr').
    cbn [nearest_scan_io fst]. rewrite (bind_ok _ _ _ _ Ht), Ht'. simpl fst. simpl snd.
    eexists. split; [reflexivity |].
    simpl. rewrite !filter_app, Hgd, Hgd', Hpr, Hpr'. now split.
Qed.

(** X3. [nearest] calls [get_dist] once for each site, in the mapping's
    order, from the query to the site's stored coordinate and with [miles]
    false; it prints nothing and returns. *)
Theorem nearest_calls_get_dist_once_per_site (self : Zipcode) (p1 : coord) :
  snd (nearest_io self p1) = Ok (nearest self p1) /\
  filter is_get_dist (fst (nearest_io self p1)) =
    map (fun entry =>
           Call_get_dist p1 (loc_lat (snd entry), loc_lng (snd entry)) false)
      (vaccine_locations self) /\
  filter is_print (fst (nearest_io self p1)) = [].
Proof.
  unfold nearest_io, nearest.
  destruct (nearest_scan_io_trace p1 (vaccine_locations self) (float_max, ""))
    as (t & Ht & Hgd & Hpr).
  unfold emit. rewrite (bind_ok _ _ [Call_nearest p1] tt eq_refl).
  rewrite (bind_ok _ _ _ _ Ht). unfold ret. simpl.
  rewrite !filter_app, Hgd, Hpr. simpl. now rewrite !app_nil_r.
Qed.

(** [nearest] returns its result and prints nothing on the way. *)
Lemma nearest_io_silent (self : Zipcode) (p1 : coord) :
  nearest_io self p1 = (fst (nearest_io self p1), Ok (nearest self p1)) /\
  filter is_print (fst (nearest_io self p1)) = [].
Proof.
  unfold nearest_io, nearest.
  destruct (nearest_scan_io_trace p1 (vaccine_locations self) (float_max, ""))
    as (t & Ht & _ & Hpr).
  unfold emit. rewrite (bind_ok _ _ [Call_nearest p1] tt eq_refl).
  rewrite (bind_ok _ _ _ _ Ht). unfold ret. simpl.
  split; [reflexivity |]. now rewrite filter_app, Hpr.
Qed.

(** X4. With the files loaded, the typed name a key of the individuals'
    mapping and that person's zip code a key of the table, [main] returns
    after one print: the name [nearest] gives for the coordinate stored
    with the zip code. Before it come the prompt, the call of [get_latlng]
    and the calls [nearest] makes. *)
Theorem main_prints_nearest
  (zipcodes_txt vaccine_locations_txt fariba_txt : list string) (typed : string)
  (zipcode : Zipcode) (eligibility : Eligibility) (who : person)
  (rec : zipdict) :
  Zipcode_init zipcodes_txt vaccine_locations_txt = Ok zipcode ->
  combined_Eligibility fariba_txt = Ok eligibility ->
  get (info eligibility) typed = Some who ->
  get (zipcodes zipcode) (p_zipcode who) = Some rec ->
  let p1 := (zd_lat rec, zd_lng rec) in
  let run := main zipcodes_txt vaccine_locations_txt fariba_txt typed in
  run =
    ((Input "What is your name? " :: Call_get_latlng (p_zipcode who)
        :: fst (nearest_io zipcode p1) ++ [Print (nearest zipcode p1)])%list,
     Ok tt) /\
  filter is_print (fst run) = [Print (nearest zipcode p1)].
Proof.
  intros Hz He Hget Hrec p1 run.
  destruct (nearest_io_silent zipcode p1) as (Hn & Hpr).
  assert (Hll : get_latlng_io zipcode (p_zipcode who)
                = ([Call_get_latlng (p_zipcode who)], Ok p1)).
  { unfold get_latlng_io, get_latlng, getitem, emit, lift, bind.
    now rewrite Hrec. }
  assert (Hrun : run =
    ((Input "What is your name? " :: Call_get_latlng (p_zipcode who)
        :: fst (nearest_io zipcode p1) ++ [Print (nearest zipcode p1)])%list,
     Ok tt)).
  { unfold run, main, lift. rewrite Hz, He.
    cbn [bind emit ret app]. unfold mem, getitem. rewrite Hget.
    cbn [bind app]. rewrite Hll. cbn [bind app]. rewrite Hn.
    cbn [bind emit app]. reflexivity. }
  split; [exact Hrun |].
  rewrite Hrun. simpl. rewrite filter_app, Hpr. reflexivity.
Qed.

End NearestFacts.

(** ** More on dictionaries *)

Section MoreDictFacts.

Context {V : Type}.
Implicit Types (d : dict V) (k : string) (v : V).

Lemma In_set d k v k0 v0 :
  In (k0, v0) (set d k v) -> (k0 = k /\ v0 = v) \/ In (k0, v0) d.
Proof.
  induction d as [| [k' v'] r IH]; simpl.
  - intros [[= <- <-] | []]. now left.
  - destruct (String.eqb_spec k k') as [<- | Hne]; simpl.
    + intros [[= <- <-] | Hin]; [now left | right; now right].
    + intros [Heq | Hin]; [right; now left |].
      destruct (IH Hin) as [H | H]; [now left | right; now right].
Qed.

Lemma keys_set d k v k0 :
  In k0 (keys (set d k v)) <-> k0 = k \/ In k0 (keys d).
Proof.
  induction d as [| [k' v'] r IH]; simpl.
  - intuition congruence.
  - destruct (String.eqb_spec k k') as [<- | Hne]; simpl.
    + intuition congruence.
    + rewrite IH. intuition congruence.
Qed.

Lemma NoDup_keys_set d k v : NoDup (keys d) -> NoDup (keys (set d k v)).
Proof.
  induction d as [| [k' v'] r IH]; simpl; intros Hnd.
  - constructor; [intros [] | constructor].
  - inversion Hnd as [| x xs Hnotin Hnd']; subst.
    destruct (String.eqb_spec k k') as [<- | Hne]; simpl.
    + now constructor.
    + constructor; [| now apply IH].
      intros Hin. apply keys_set in Hin. destruct Hin as [-> | Hin]; auto.
Qed.

Lemma In_get_NoDup d k v : NoDup (keys d) -> In (k, v) d -> get d k = Some v.
Proof.
  induction d as [| [k' v'] r IH]; simpl; intros Hnd Hin; [contradiction |].
  inversion Hnd as [| x xs Hnotin Hnd']; subst.
  destruct Hin as [[= -> ->] | Hin].
  - now rewrite String.eqb_refl.
  - destruct (String.eqb_spec k k') as [-> | Hne]; [| now apply IH].
    exfalso. apply Hnotin. change k' with (fst (k', v)). now apply in_map.
Qed.

End MoreDictFacts.

(** ** More on the classifier and on the records of [Eligibility] *)

(** X5. The age counts only through the test [age >= 60]: two ages on the
    same side of 60 give the same phase, whatever the other arguments. *)
Theorem eligible_age_threshold (age age' : Z) (immunocompromised job : string) :
  (age >= 60 <-> age' >= 60) ->
  eligible age immunocompromised job = eligible age' immunocompromised job.
Proof.
  intros H. unfold eligible.
  assert (E : (age >=? 60) = (age' >=? 60)).
  { rewrite !Z.geb_leb.
    destruct (Z.leb_spec 60 age), (Z.leb_spec 60 age'); try reflexivity; lia. }
  now rewrite E.
Qed.

(** A line of white space only. *)
Fixpoint all_space (s : string) : bool :=
  match s with
  | EmptyString => true
  | String c r => is_space c && all_space r
  end.

Lemma lstrip_all_space (s : string) : all_space s = true -> lstrip s = EmptyString.
Proof.
  induction s as [| c r IH]; simpl; [reflexivity |].
  destruct (is_space c); simpl; [exact IH | discriminate].
Qed.

Lemma blank_line_no_fields (line : string) :
  all_space line = true -> split_ws (strip line) = [].
Proof.
  intros H. unfold strip. now rewrite (lstrip_all_space line H).
Qed.

(** The second [main] of the file: [print(eligibility)] writes what
    [__repr__] returns. *)
Definition main' {ext : Externals} (fariba_txt : list string) : io unit :=
  eligibility <~ lift (Eligibility_init fariba_txt) ;;
  emit (Print (Eligibility_repr eligibility)).

Section MoreEligibilityFacts.

Context {ext : Externals}.

(** What a line that loads holds and stores. *)
Lemma Eligibility_init_line_Ok info0 line info1 :
  Eligibility_init_line info0 line = Ok info1 ->
  exists name a immunocompromised job preference zipcode rest age,
    split_ws (strip line) =
      name :: a :: immunocompromised :: job :: preference :: zipcode :: rest /\
    py_int a = Some age /\
    info1 =
      set info0 name
        (mk_person name age immunocompromised job preference zipcode
           (eligible age immunocompromised job)).
Proof.
  unfold Eligibility_init_line, int_of.
  destruct (split_ws (strip line))
    as [| name [| a [| imm [| job [| pref [| zip rest]]]]]];
    simpl; try discriminate;
    try (destruct (py_int a) as [age |]; simpl; discriminate).
  destruct (py_int a) as [age |] eqn:Ea; simpl; [| discriminate].
  intros [= <-]. exists name, a, imm, job, pref, zip, rest, age. now repeat split.
Qed.

(** A line with fewer than six fields raises. *)
Lemma Eligibility_init_line_short info0 line :
  (List.length (split_ws (strip line)) < 6)%nat ->
  exists e,
    Eligibility_init_line info0 line = Raise e /\
    (e = IndexError \/ e = ValueError) /\
    (split_ws (strip line) = [] -> e = IndexError).
Proof.
  unfold Eligibility_init_line, int_of.
  destruct (split_ws (strip line))
    as [| name [| a [| imm [| job [| pref [| zip rest]]]]]];
    simpl; intros Hlen; try lia;
    try (destruct (py_int a) as [age |]; simpl);
    eexists; (split; [reflexivity |]); split; auto; discriminate.
Qed.

Lemma Eligibility_init_lines_app pre rest :
  forall info0,
    Eligibility_init_lines info0 (pre ++ rest)%list =
    (info1 <- Eligibility_init_lines info0 pre ;; Eligibility_init_lines info1 rest).
Proof.
  induction pre as [| line pre IH]; simpl; intros info0; [reflexivity |].
  destruct (Eligibility_init_line info0 line) as [info' |]; simpl;
    [apply IH | reflexivity].
Qed.

(** X6. When the lines before it load, a line with fewer than six fields
    makes [Eligibility.__init__] raise [IndexError] or [ValueError], the
    lines after it unread; a line of white space only (an empty last line,
    say) raises [IndexError]. The second [main] then prints nothing. *)
Theorem Eligibility_init_short_line (pre post : list string) (line : string)
  (info1 : dict person) :
  Eligibility_init_lines empty pre = Ok info1 ->
  (List.length (split_ws (strip line)) < 6)%nat ->
  exists e,
    Eligibility_init (pre ++ line :: post)%list = Raise e /\
    main' (pre ++ line :: post)%list = ([], Raise e) /\
    (e = IndexError \/ e = ValueError) /\
    (all_space line = true -> e = IndexError).
Proof.
  intros Hpre Hlen.
  destruct (Eligibility_init_line_short info1 line Hlen) as (e & He & Hkind & Hblank).
  assert (Hinit : Eligibility_init (pre ++ line :: post)%list = Raise e).
  { unfold Eligibility_init. rewrite Eligibility_init_lines_app, Hpre.
    simpl. now rewrite He. }
  exists e. split; [exact Hinit |]. split; [| split].
  - unfold main', lift. now rewrite Hinit.
  - exact Hkind.
  - intros Hsp. apply Hblank. now apply blank_line_no_fields.
Qed.

(** The record [p] stored under [name] was read from the last line of
    [lines] whose first field is [name]: its fields are the first six of
    that line, the age through [int], and its phase is [eligible] of
    them. *)
Definition person_read_from (lines : list string) (name : string) (p : person)
  : Prop :=
  exists pre line post a immunocompromised job preference zipcode rest age,
    lines = (pre ++ line :: post)%list /\
    split_ws (strip line) =
      name :: a :: immunocompromised :: job :: preference :: zipcode :: rest /\
    py_int a = Some age /\
    p = mk_person name age immunocompromised job preference zipcode
          (eligible age immunocompromised job) /\
    (forall j, In j post -> hd_error (split_ws (strip j)) <> Some name).

(** The records are those of the lines read and the keys have no repeat. *)
Definition info_read_from (lines : list string) (d : dict person) : Prop :=
  NoDup (keys d) /\
  (forall name p, get d name = Some p -> person_read_from lines name p) /\
  (forall line name,
      In line lines -> hd_error (split_ws (strip line)) = Some name ->
      In name (keys d)).

Lemma person_read_from_later lines line name p :
  person_read_from lines name p ->
  hd_error (split_ws (strip line)) <> Some name ->
  person_read_from (lines ++ [line])%list name p.
Proof.
  intros (pre & l0 & post & a & imm & job & pref & zip & rest & age
          & -> & Hs & Ha & Hp & Hpost) Hline.
  exists pre, l0, (post ++ [line])%list, a, imm, job, pref, zip, rest, age.
  rewrite <- app_assoc. repeat split; try assumption.
  intros j Hj. apply in_app_or in Hj. destruct Hj as [Hj | [<- | []]]; auto.
Qed.

Lemma Eligibility_init_line_read lines info0 line info1 :
  info_read_from lines info0 ->
  Eligibility_init_line info0 line = Ok info1 ->
  info_read_from (lines ++ [line])%list info1.
Proof.
  intros (Hnd & Hrec & Hkeys) H.
  destruct (Eligibility_init_line_Ok _ _ _ H)
    as (name & a & imm & job & pref & zip & rest & age & Hs & Ha & ->).
  split; [| split].
  - now apply NoDup_keys_set.
  - intros k p. destruct (String.eqb_spec k name) as [-> | Hne].
    + rewrite get_set_same. intros [= <-].
      exists lines, line, [], a, imm, job, pref, zip, rest, age.
      repeat split; try assumption. intros j [].
    + rewrite get_set_other by assumption. intros Hget.
      apply person_read_from_later; [now apply Hrec |].
      rewrite Hs. simpl. congruence.
  - intros l k Hin Hhd. apply keys_set. apply in_app_or in Hin.
    destruct Hin as [Hin | [<- | []]].
    + right. now apply (Hkeys l).
    + left. rewrite Hs in Hhd. simpl in Hhd. congruence.
Qed.

Lemma Eligibility_init_lines_read rest :
  forall lines info0 info1,
    info_read_from lines info0 ->
    Eligibility_init_lines info0 rest = Ok info1 ->
    info_read_from (lines ++ rest)%list info1.
Proof.
  induction rest as [| line rest IH]; simpl; intros lines info0 info1 Hinv H.
  - injection H as <-. now rewrite app_nil_r.
  - destruct (Eligibility_init_line info0 line) as [info' |] eqn:E; simpl in H;
      [| discriminate].
    replace (lines ++ line :: rest)%list with ((lines ++ [line]) ++ rest)%list
      by (now rewrite <- app_assoc).
    eapply IH; [| exact H]. eapply Eligibility_init_line_read; eassumption.
Qed.

Lemma Eligibility_init_read (f : list string) (self : Eligibility) :
  Eligibility_init f = Ok self -> info_read_from f (info self).
Proof.
  unfold Eligibility_init. intros H.
  destruct (Eligibility_init_lines empty f) as [d |] eqn:E; simpl in H;
    [| discriminate].
  injection H as <-. simpl.
  apply (Eligibility_init_lines_read f [] empty d); [| exact E].
  split; [constructor | split].
  - intros name p Hget. discriminate.
  - intros line name [].
Qed.

(** X7. In a constructed [Eligibility] the record under a name is the one
    of the last line of the file that starts with that name (an earlier
    line with the same name is overwritten): its fields are that line's
    first six, the age through [int], and the record's own name is its
    key. *)
Theorem Eligibility_init_last_line_wins (f : list string) (self : Eligibility)
  (name : string) (p : person) :
  Eligibility_init f = Ok self ->
  get (info self) name = Some p ->
  exists pre line post a immunocompromised job preference zipcode rest age,
    f = (pre ++ line :: post)%list /\
    split_ws (strip line) =
      name :: a :: immunocompromised :: job :: preference :: zipcode :: rest /\
    py_int a = Some age /\
    p = mk_person name age immunocompromised job preference zipcode
          (eligible age immunocompromised job) /\
    (forall j, In j post -> hd_error (split_ws (strip j)) <> Some name).
Proof.
  intros Hinit Hget.
  destruct (Eligibility_init_read f self Hinit) as (_ & Hrec & _).
  exact (Hrec name p Hget).
Qed.

(** X8. The keys of a constructed [Eligibility] are the first fields of the
    lines of the file, each key once however many lines start with it. *)
Theorem Eligibility_init_keys (f : list string) (self : Eligibility) :
  Eligibility_init f = Ok self ->
  NoDup (keys (info self)) /\
  (forall name,
      In name (keys (info self)) <->
      exists line, In line f /\ hd_error (split_ws (strip line)) = Some name).
Proof.
  intros Hinit.
  destruct (Eligibility_init_read f self Hinit) as (Hnd & Hrec & Hkeys).
  split; [exact Hnd |]. intros name. split.
  - intros Hin. destruct (In_keys_get _ _ Hin) as [p Hget].
    destruct (Hrec name p Hget)
      as (pre & line & post & a & imm & job & pref & zip & rest & age
          & -> & Hs & _).
    exists line. split; [apply in_or_app; right; now left |].
    now rewrite Hs.
  - intros (line & Hin & Hhd). now apply (Hkeys line).
Qed.

(** The text [__repr__] builds is the lines of the entries, in order. *)
Lemma Eligibility_repr_fold (g : string * person -> string)
  (d : dict person) :
  forall acc,
    fold_left (fun acc entry => acc ++ g entry) d acc =
    acc ++ fold_right (fun entry text => g entry ++ text) "" d.
Proof.
  assert (Happ_nil : forall s : string, s ++ "" = s).
  { induction s as [| c s IH]; simpl; [reflexivity | now rewrite IH]. }
  assert (Happ_assoc : forall s t u : string, (s ++ t) ++ u = s ++ (t ++ u)).
  { induction s as [| c s IH]; simpl; intros t u; [reflexivity | now rewrite IH]. }
  induction d as [| e d IH]; simpl; intros acc.
  - now rewrite Happ_nil.
  - now rewrite IH, Happ_assoc.
Qed.

(** X9. For a constructed [Eligibility], [__repr__] returns one line for
    each key, in the dictionary's order: the key, a space, the phase
    [eligible] gives for the record stored under it, and a line feed. *)
Theorem Eligibility_repr_lines (f : list string) (self : Eligibility) :
  Eligibility_init f = Ok self ->
  Eligibility_repr self =
  fold_right
    (fun entry text =>
       (fst entry ++ " " ++
        eligible (p_age (snd entry)) (p_immunocompromised (snd entry))
          (p_job (snd entry)) ++ String "010" EmptyString) ++ text)
    "" (info self).
Proof.
  intros Hinit.
  destruct (Eligibility_init_read f self Hinit) as (Hnd & Hrec & _).
  unfold Eligibility_repr. rewrite Eligibility_repr_fold. simpl.
  assert (Hall : forall k p, In (k, p) (info self) ->
                   p_phase p = eligible (p_age p) (p_immunocompromised p) (p_job p)).
  { intros k p Hin. pose proof (In_get_NoDup _ _ _ Hnd Hin) as Hget.
    destruct (Hrec k p Hget)
      as (pre & line & post & a & imm & job & pref & zip & rest & age
          & _ & _ & _ & -> & _). reflexivity. }
  clear Hnd Hrec Hinit. revert Hall. generalize (info self). intros d.
  induction d as [| [k p] d IH]; simpl; intros Hall; [reflexivity |].
  rewrite (Hall k p (or_introl eq_refl)). f_equal.
  apply IH. intros k' p' Hin. apply (Hall k'). now right.
Qed.

End MoreEligibilityFacts.

(** ** More on the tables of [Zipcode] *)

Section MoreZipcodeFacts.

Context {ext : Externals}.

Lemma float_of_raises (s : string) (e : exn) :
  float_of s = Raise e -> e = ValueError.
Proof. unfold float_of. destruct (py_float s); [discriminate | now intros [= <-]]. Qed.

(** A line of the zip codes' file: what it stores when it loads, and that
    it raises nothing but [ValueError]. *)
Lemma Zipcode_init_zip_line_cases zs i :
  (exists zip lat lng a b,
      split_on "," i = [zip; lat; lng] /\
      Zipcode_init_zip_line zs i = Ok (set zs zip (mk_zipdict (strip zip) a b))) \/
  Zipcode_init_zip_line zs i = Raise ValueError.
Proof.
  unfold Zipcode_init_zip_line, float_of.
  destruct (split_on "," i) as [| zip [| lat [| lng [| x r]]]]; try (now right).
  destruct (py_float (strip lat)) as [a |]; simpl; [| now right].
  destruct (py_float (strip lng)) as [b |]; simpl; [| now right].
  left. now exists zip, lat, lng, a, b.
Qed.

Lemma Zipcode_init_location_line_cases ls i :
  (exists name zip lat lng a b,
      split_on "," i = [name; zip; lat; lng] /\
      Zipcode_init_location_line ls i =
        Ok (set ls name (mk_location (strip name) (strip zip) a b))) \/
  Zipcode_init_location_line ls i = Raise ValueError.
Proof.
  unfold Zipcode_init_location_line, float_of.
  destruct (split_on "," i) as [| name [| zip [| lat [| lng [| x r]]]]];
    try (now right).
  destruct (py_float (strip lat)) as [a |]; simpl; [| now right].
  destruct (py_float (strip lng)) as [b |]; simpl; [| now right].
  left. now exists name, zip, lat, lng, a, b.
Qed.

(** The loop over the zip codes' file ends in [ValueError] or, every line
    having three fields, in a table whose records hold their key
    stripped. *)
Lemma Zipcode_init_zips_cases f :
  forall zs,
    (forall z rec, In (z, rec) zs -> zd_zip rec = strip z) ->
    Zipcode_init_zips zs f = Raise ValueError \/
    exists zs',
      Zipcode_init_zips zs f = Ok zs' /\
      (forall i, In i f -> List.length (split_on "," i) = 3%nat) /\
      (forall z rec, In (z, rec) zs' -> zd_zip rec = strip z).
Proof.
  induction f as [| i rest IH]; simpl; intros zs Hzs.
  - right. exists zs. repeat split; [intros i [] | exact Hzs].
  - destruct (Zipcode_init_zip_line_cases zs i)
      as [(zip & lat & lng & a & b & Hs & ->) | ->]; simpl; [| now left].
    destruct (IH (set zs zip (mk_zipdict (strip zip) a b)))
      as [-> | (zs' & -> & Hlen & Hstrip)].
    + intros z rec Hin. apply In_set in Hin.
      destruct Hin as [[-> ->] | Hin]; [reflexivity | now apply Hzs].
    + now left.
    + right. exists zs'. repeat split; [| exact Hstrip].
      intros j [<- | Hj]; [now rewrite Hs | now apply Hlen].
Qed.

Lemma Zipcode_init_locations_cases f :
  forall ls,
    (forall n l, In (n, l) ls -> loc_name l = strip n) ->
    Zipcode_init_locations ls f = Raise ValueError \/
    exists ls',
      Zipcode_init_locations ls f = Ok ls' /\
      (forall i, In i f -> List.length (split_on "," i) = 4%nat) /\
      (forall n l, In (n, l) ls' -> loc_name l = strip n).
Proof.
  induction f as [| i rest IH]; simpl; intros ls Hls.
  - right. exists ls. repeat split; [intros i [] | exact Hls].
  - destruct (Zipcode_init_location_line_cases ls i)
      as [(name & zip & lat & lng & a & b & Hs & ->) | ->]; simpl; [| now left].
    destruct (IH (set ls name (mk_location (strip name) (strip zip) a b)))
      as [-> | (ls' & -> & Hlen & Hstrip)].
    + intros n l Hin. apply In_set in Hin.
      destruct Hin as [[-> ->] | Hin]; [reflexivity | now apply Hls].
    + now left.
    + right. exists ls'. repeat split; [| exact Hstrip].
      intros j [<- | Hj]; [now rewrite Hs | now apply Hlen].
Qed.

Lemma Zipcode_init_cases file1 file2 :
  Zipcode_init file1 file2 = Raise ValueError \/
  exists self,
    Zipcode_init file1 file2 = Ok self /\
    (forall i, In i file1 -> List.length (split_on "," i) = 3%nat) /\
    (forall i, In i file2 -> List.length (split_on "," i) = 4%nat) /\
    (forall z rec, In (z, rec) (zipcodes self) -> zd_zip rec = strip z) /\
    (forall n l, In (n, l) (vaccine_locations self) -> loc_name l = strip n).
Proof.
  unfold Zipcode_init.
  destruct (Zipcode_init_zips_cases file1 empty) as [-> | (zs & -> & Hlen1 & Hs1)];
    [intros z rec [] | now left |].
  destruct (Zipcode_init_locations_cases file2 empty)
    as [-> | (ls & -> & Hlen2 & Hs2)]; [intros n l [] | now left |].
  right. exists (mk_Zipcode zs ls). simpl. repeat split; assumption.
Qed.

(** X10. In a constructed [Zipcode] every key is a first field as the file
    has it, and the record under it holds that field stripped: the "zip" of
    a zip code's record is its key stripped, and so is the "name" of a
    site. *)
Theorem Zipcode_init_stripped_fields (file1 file2 : list string) (self : Zipcode) :
  Zipcode_init file1 file2 = Ok self ->
  (forall z rec, In (z, rec) (zipcodes self) -> zd_zip rec = strip z) /\
  (forall n l, In (n, l) (vaccine_locations self) -> loc_name l = strip n).
Proof.
  intros Hinit.
  destruct (Zipcode_init_cases file1 file2)
    as [Hraise | (self' & Hok & _ & _ & Hz & Hl)]; [congruence |].
  assert (self' = self) as -> by congruence. now split.
Qed.

(** X11. A line of the zip codes' file that does not have three fields
    between commas, or a line of the sites' file that does not have four,
    makes [Zipcode.__init__] raise [ValueError], wherever the line is; [main]
    then ends with that error before it asks for a name. *)
Theorem Zipcode_init_malformed_line (file1 file2 : list string) (i : string) :
  (In i file1 /\ List.length (split_on "," i) <> 3%nat) \/
  (In i file2 /\ List.length (split_on "," i) <> 4%nat) ->
  Zipcode_init file1 file2 = Raise ValueError /\
  (forall fariba_txt typed,
      main file1 file2 fariba_txt typed = ([], Raise ValueError)).
Proof.
  intros Hbad.
  assert (Hraise : Zipcode_init file1 file2 = Raise ValueError).
  { destruct (Zipcode_init_cases file1 file2)
      as [Hraise | (self & _ & Hlen1 & Hlen2 & _)]; [exact Hraise |].
    destruct Hbad as [[Hin Hlen] | [Hin Hlen]]; exfalso; apply Hlen; auto. }
  split; [exact Hraise |].
  intros fariba_txt typed. unfold main, lift. now rewrite Hraise.
Qed.

(** X12. [Zipcode.__init__] raises no exception other than [ValueError]. *)
Theorem Zipcode_init_raises_ValueError (file1 file2 : list string) (e : exn) :
  Zipcode_init file1 file2 = Raise e -> e = ValueError.
Proof.
  intros H.
  destruct (Zipcode_init_cases file1 file2) as [Hraise | (self & Hok & _)];
    congruence.
Qed.

End MoreZipcodeFacts.

(** ** More on the charts *)

Definition in_ages (answer : string) (lo hi : Z) (r : row) : bool :=
  String.eqb (r_will_take_vaccine r) answer &&
  ((lo <? r_age r) && (r_age r <=? hi)).

Lemma groups_partition (answer : string) (df : list row) :
  (List.length (filter (in_ages answer 0 25) df) +
   (List.length (filter (in_ages answer 25 50) df) +
    (List.length (filter (in_ages answer 50 75) df) +
     (List.length (filter (in_ages answer 75 100) df) + 0))))%nat =
  List.length (filter (in_ages answer 0 100) df).
Proof.
  induction df as [| r df IH]; [reflexivity |].
  unfold in_ages in *. simpl.
  destruct (String.eqb (r_will_take_vaccine r) answer); simpl; [| exact IH].
  repeat match goal with
    | |- context [Z.ltb ?a ?b] => destruct (Z.ltb_spec a b)
    | |- context [Z.leb ?a ?b] => destruct (Z.leb_spec a b)
    end; simpl; lia.
Qed.

Lemma answers_apart (df : list row) :
  (List.length (filter (in_ages "yes" 0 100) df) +
   List.length (filter (in_ages "no" 0 100) df) <= List.length df)%nat.
Proof.
  induction df as [| r df IH]; [simpl; lia |].
  unfold in_ages in *. simpl.
  destruct (String.eqb_spec (r_will_take_vaccine r) "yes") as [Hy | Hy];
    destruct (String.eqb_spec (r_will_take_vaccine r) "no") as [Hn | Hn];
    try congruence; simpl;
    destruct ((0 <? r_age r) && (r_age r <=? 100)); simpl; lia.
Qed.

Lemma graph_total (answer : string) (df : list row) :
  list_sum (map snd (count_by_group (select_answer answer df))) =
  List.length (filter (in_ages answer 0 100) df).
Proof.
  unfold count_by_group, age_labels. simpl map.
  rewrite (count_answer_group answer "18-24" 0 0 25),
    (count_answer_group answer "25-44" 1 25 50),
    (count_answer_group answer "45-64" 2 50 75),
    (count_answer_group answer "65-80" 3 75 100); try (simpl; tauto).
  apply groups_partition.
Qed.

(** X13. The four counts of [graphyes] add up to the number of rows whose
    answer is "yes" and whose age is above 0 and at most 100, and the same
    for [graphno] with "no": every such row is counted in one group, and a
    row with another answer or another age in none. The two charts together
    count no more rows than the file has. *)
Theorem graph_totals (df : list row) :
  list_sum (map snd (graphyes df)) =
    List.length
      (filter (fun r => String.eqb (r_will_take_vaccine r) "yes" &&
                        ((0 <? r_age r) && (r_age r <=? 100))) df) /\
  list_sum (map snd (graphno df)) =
    List.length
      (filter (fun r => String.eqb (r_will_take_vaccine r) "no" &&
                        ((0 <? r_age r) && (r_age r <=? 100))) df) /\
  (list_sum (map snd (graphyes df)) + list_sum (map snd (graphno df))
   <= List.length df)%nat.
Proof.
  unfold graphyes, graphno. rewrite !graph_total.
  repeat split. apply answers_apart.
Qed.

(** ** The exceptions of [Eligibility.__init__] *)

Section EligibilityErrors.

Context {ext : Externals}.

Lemma Eligibility_init_line_raises info0 line e :
  Eligibility_init_line info0 line = Raise e ->
  (e = IndexError /\ (List.length (split_ws (strip line)) < 6)%nat) \/
  (e = ValueError /\
   exists a, nth_error (split_ws (strip line)) 1 = Some a /\ py_int a = None).
Proof.
  unfold Eligibility_init_line, int_of.
  destruct (split_ws (strip line))
    as [| name [| a [| imm [| job [| pref [| zip rest]]]]]];
    simpl; try (destruct (py_int a) as [age |] eqn:Ea; simpl);
    intros H; try discriminate H; injection H as <-;
    first [ left; split; [reflexivity | simpl; lia]
          | right; split; [reflexivity | now exists a] ].
Qed.

(** X14. [Eligibility.__init__] raises [IndexError] only at a line with
    fewer than six fields and [ValueError] only at a line whose second field
    [int] refuses, and nothing else. *)
Theorem Eligibility_init_raises (f : list string) (e : exn) :
  Eligibility_init f = Raise e ->
  exists line,
    In line f /\
    ((e = IndexError /\ (List.length (split_ws (strip line)) < 6)%nat) \/
     (e = ValueError /\
      exists a, nth_error (split_ws (strip line)) 1 = Some a /\ py_int a = None)).
Proof.
  unfold Eligibility_init.
  assert (H : forall info0,
             Eligibility_init_lines info0 f = Raise e ->
             exists line,
               In line f /\
               ((e = IndexError /\ (List.length (split_ws (strip line)) < 6)%nat) \/
                (e = ValueError /\
                 exists a, nth_error (split_ws (strip line)) 1 = Some a /\
                           py_int a = None))).
  { induction f as [| line rest IH]; simpl; intros info0 Hr; [discriminate |].
    destruct (Eligibility_init_line info0 line) as [info1 |] eqn:E; simpl in Hr.
    - destruct (IH info1 Hr) as (l & Hin & Hl). exists l. split; [now right | exact Hl].
    - injection Hr as <-. exists line. split; [now left |].
      now apply (Eligibility_init_line_raises info0). }
  intros Hr. apply (H empty).
  destruct (Eligibility_init_lines empty f) as [d | e0]; simpl in Hr;
    [discriminate | now injection Hr as <-].
Qed.

End EligibilityErrors.

(** * The further properties on the sample inputs *)

Lemma nearest_is_nearest_witness :
  exists l,
    In (nearest (ext := ext) sites there, l) (vaccine_locations sites) /\
    PrimFloat.ltb (get_dist (ext := ext) there (loc_lat l, loc_lng l) false)
      float_max = true /\
    forall n' l',
      In (n', l') (vaccine_locations sites) ->
      PrimFloat.ltb (get_dist (ext := ext) there (loc_lat l', loc_lng l') false)
        (get_dist (ext := ext) there (loc_lat l, loc_lng l) false) = false.
Proof.
  apply (nearest_is_nearest (ext := ext) sites there).
  exists "Clinic C", (snd (site "Clinic C" "20742" there)).
  split; [simpl; tauto | reflexivity].
Defined.

Lemma nearest_with_one_more_site_witness :
  mem "Clinic C" (vaccine_locations unnamed) = false /\
  (nearest (ext := ext)
     (mk_Zipcode (zipcodes unnamed)
        (set (vaccine_locations unnamed) "Clinic C"
           (snd (site "Clinic C" "20742" there)))) there
   = nearest (ext := ext) unnamed there \/
   nearest (ext := ext)
     (mk_Zipcode (zipcodes unnamed)
        (set (vaccine_locations unnamed) "Clinic C"
           (snd (site "Clinic C" "20742" there)))) there
   = "Clinic C").
Proof.
  split; [reflexivity |].
  apply (nearest_with_one_more_site (ext := ext) unnamed there "Clinic C"
           (snd (site "Clinic C" "20742" there))).
  reflexivity.
Defined.

Lemma main_prints_nearest_witness :
  get (info people) "Fariba"
    = Some (mk_person "Fariba" 45 "no" "doctor" "yes" "02139" "phase 1") /\
  filter is_print
    (fst (main (ext := ext) zipcodes_txt vaccine_locations_txt fariba_txt "Fariba"))
  = [Print "Clinic A"].
Proof.
  split; [reflexivity |].
  exact (proj2 (main_prints_nearest (ext := ext) zipcodes_txt vaccine_locations_txt
                  fariba_txt "Fariba" loaded people
                  (mk_person "Fariba" 45 "no" "doctor" "yes" "02139" "phase 1")
                  (mk_zipdict "02139" (fst here) (snd here))
                  eq_refl eq_refl eq_refl eq_refl)).
Defined.

Lemma eligible_age_threshold_witness :
  (30 >= 60 <-> 45 >= 60) /\ eligible 30 "yes" "clerk" = eligible 45 "yes" "clerk".
Proof.
  assert (H : 30 >= 60 <-> 45 >= 60) by lia.
  split; [exact H |].
  apply (eligible_age_threshold 30 45 "yes" "clerk" H).
Defined.

Lemma Eligibility_init_short_line_witness :
  Eligibility_init_lines (ext := base) empty fariba_txt = Ok (info people) /\
  exists e,
    Eligibility_init (ext := base) (fariba_txt ++ newline :: [])%list = Raise e /\
    main' (ext := base) (fariba_txt ++ newline :: [])%list = ([], Raise e) /\
    (e = IndexError \/ e = ValueError) /\
    (all_space newline = true -> e = IndexError).
Proof.
  split; [reflexivity |].
  apply (Eligibility_init_short_line (ext := base) fariba_txt [] newline (info people)).
  - reflexivity.
  - simpl. lia.
Defined.

Lemma Eligibility_init_last_line_wins_witness :
  exists pre line post a immunocompromised job preference zipcode rest age,
    fariba_txt = (pre ++ line :: post)%list /\
    split_ws (strip line) =
      "Omar" :: a :: immunocompromised :: job :: preference :: zipcode :: rest /\
    py_int (Externals := base) a = Some age /\
    mk_person "Omar" 30 "yes" "clerk" "no" "20742" "phase 2" =
      mk_person "Omar" age immunocompromised job preference zipcode
        (eligible age immunocompromised job) /\
    (forall j, In j post -> hd_error (split_ws (strip j)) <> Some "Omar").
Proof.
  apply (Eligibility_init_last_line_wins (ext := base) fariba_txt people "Omar"
           (mk_person "Omar" 30 "yes" "clerk" "no" "20742" "phase 2"));
    reflexivity.
Defined.

Lemma Eligibility_init_keys_witness :
  NoDup (keys (info people)) /\
  (forall name,
      In name (keys (info people)) <->
      exists line, In line fariba_txt /\ hd_error (split_ws (strip line)) = Some name).
Proof.
  apply (Eligibility_init_keys (ext := base) fariba_txt people). reflexivity.
Defined.

Lemma Eligibility_repr_lines_witness :
  Eligibility_repr people =
  "Fariba phase 1" ++ newline ++ "Omar phase 2" ++ newline.
Proof.
  apply (Eligibility_repr_lines (ext := base) fariba_txt people). reflexivity.
Defined.

Lemma Zipcode_init_stripped_fields_witness :
  (forall z rec, In (z, rec) (zipcodes loaded) -> zd_zip rec = strip z) /\
  (forall n l, In (n, l) (vaccine_locations loaded) -> loc_name l = strip n).
Proof.
  apply (Zipcode_init_stripped_fields (ext := ext) zipcodes_txt vaccine_locations_txt
           loaded).
  reflexivity.
Defined.

Lemma Zipcode_init_malformed_line_witness :
  Zipcode_init (ext := ext) (zipcodes_txt ++ [newline])%list vaccine_locations_txt
    = Raise ValueError /\
  (forall fariba_txt typed,
      main (ext := ext) (zipcodes_txt ++ [newline])%list vaccine_locations_txt
        fariba_txt typed = ([], Raise ValueError)).
Proof.
  apply (Zipcode_init_malformed_line (ext := ext) (zipcodes_txt ++ [newline])%list
           vaccine_locations_txt newline).
  left. split; [simpl; tauto | simpl; lia].
Defined.

Lemma Zipcode_init_raises_ValueError_witness :
  Zipcode_init (ext := ext) [newline] [] = Raise ValueError /\
  ValueError = ValueError.
Proof.
  split; [reflexivity |].
  apply (Zipcode_init_raises_ValueError (ext := ext) [newline] [] ValueError).
  reflexivity.
Defined.

Lemma Eligibility_init_raises_witness :
  exists line,
    In line ["Fariba old no doctor yes 02139"] /\
    ((ValueError = IndexError /\ (List.length (split_ws (strip line)) < 6)%nat) \/
     (ValueError = ValueError /\
      exists a, nth_error (split_ws (strip line)) 1 = Some a /\
                py_int (Externals := base) a = None)).
Proof.
  apply (Eligibility_init_raises (ext := base) ["Fariba old no doctor yes 02139"]
           ValueError).
  reflexivity.
Defined.
